(** * linopy/io.py: text (LP) export and netCDF snapshot of a model

    A shallow embedding of [linopy/io.py].

    Text export.  Tables (xarray objects backed by arrays in memory) are
    flattened in the order in which [apply_ufunc(..., vectorize=True)] visits
    them: data variable by data variable, row-major inside one variable.
    Tables that [io.py] combines cell by cell (coefficients and labels of a
    term table; label, sign and right-hand side of the constraints; label
    and bounds of the variables) are stored as one table of records, so
    that they have the same shape.  Floats are IEEE values ([spec_float]);
    the null marker of a float table is NaN, the null marker of a label or
    sign table is [None].  A file handle is the list of the strings passed
    to [f.write], oldest first.  Exceptions are values of [pyerror].

    The writers are those of tables in memory; where the order of the cells
    in the file is at stake the kind of the table is explicit
    ([constraints_to_file_on]), since [io.py] leaves the order of the
    writes on a chunked table to the scheduler.

    Snapshot.  The names and prefixes of the container are treated for
    datasets as finite maps from the names of their data variables to
    contents that are kept abstract; for these, [xr.merge] is the union of
    the data variables, which it is on datasets that are aligned already.
    The module [Labelled] gives the data variables their dimensions and
    labels, and [xr.merge] the outer join that it performs on them. *)

From Stdlib Require Import ZArith Ascii String List Sorted Floats.SpecFloat Lia.

From stdpp Require Import gmap strings list pretty.

Local Open Scope Z_scope.

(** ** Python values that occur in the string tables *)

(** The element of a [dtype=object] array: a [str], or something that is not
    one (the float NaN that marks a missing sign, the integer [0] that
    [np.sum] returns for an empty axis). *)
Inductive pyobj : Type :=
  | PStr (s : string)
  | PNaN
  | PInt (z : Z).

Inductive pyerror : Type :=
  | TypeError
  | KeyError (k : string)
  | NameError (k : string)
  | AttributeError (k : string)
  | MergeError
  | ValueError
  | FileNotFoundError (path : string).

Definition result (A : Type) : Type := pyerror + A.

Definition ret {A} (a : A) : result A := inr a.

Definition raise {A} (e : pyerror) : result A := inl e.

Definition bind {A B} (r : result A) (k : A -> result B) : result B :=
  match r with
  | inl e => inl e
  | inr a => k a
  end.

Notation "'let*' x ':=' r 'in' k" := (bind r (fun x => k))
  (at level 10, x name, r at level 100, k at level 200).

Fixpoint mapM {A B} (f : A -> result B) (l : list A) : result (list B) :=
  match l with
  | [] => ret []
  | a :: l' => let* b := f a in let* bs := mapM f l' in ret (b :: bs)
  end.

Definition nl : string := String "010"%char EmptyString.

(** ** Number formatting: [to_float_str] and [to_int_str] *)

Module Fmt.

(** [da.fillna(0)] on a float table: NaN becomes [+0.0]. *)
Definition fillna0 (f : spec_float) : spec_float :=
  match f with
  | S754_nan => S754_zero false
  | _ => f
  end.

(** [da.notnull()] on a float table. *)
Definition notnull (f : spec_float) : bool :=
  match f with
  | S754_nan => false
  | _ => true
  end.

Definition sign_char (s : bool) : string := if s then "-" else "+".

(** The last [w] decimal digits of [n], most significant first. *)
Fixpoint fixed_digits (w : nat) (n : Z) : string :=
  match w with
  | O => ""
  | S w' => fixed_digits w' (n / 10) +:+ pretty (n mod 10)
  end.

(** [|m * 2^e| * 10^6] rounded to the nearest integer, ties to even: the
    correctly rounded conversion that [%f] performs. *)
Definition round_micro (m : positive) (e : Z) : Z :=
  if 0 <=? e then Z.pos m * 2 ^ e * 1000000
  else
    let num := Z.pos m * 1000000 in
    let den := 2 ^ (- e) in
    let q := num / den in
    let r := num mod den in
    match 2 * r ?= den with
    | Lt => q
    | Gt => q + 1
    | Eq => if Z.even q then q else q + 1
    end.

(** The digits of [n] millionths: integer part, point, six fractional digits. *)
Definition fixed6 (n : Z) : string :=
  pretty (n / 1000000) +:+ "." +:+ fixed_digits 6 (n mod 1000000).

(** ["%+f" % f] *)
Definition fmt_plus_f (f : spec_float) : string :=
  match f with
  | S754_zero s => sign_char s +:+ fixed6 0
  | S754_infinity s => sign_char s +:+ "inf"
  | S754_nan => "+nan"
  | S754_finite s m e => sign_char s +:+ fixed6 (round_micro m e)
  end.

(** ["%d" % d] *)
Definition fmt_d (d : Z) : string := pretty d.

(** [lambda f: "%+f" % f] applied to one cell of [da.fillna(0)]. *)
Definition float_str (f : spec_float) : string := fmt_plus_f (fillna0 f).

(** [lambda d: "%d" % d] applied to one cell of [da.fillna(0)]. *)
Definition int_str (l : option Z) : string := fmt_d (default 0 l).

End Fmt.

(** [to_float_str(da)] and [to_int_str(da)]: elementwise over the table. *)
Definition to_float_str (da : list spec_float) : list string :=
  map Fmt.float_str da.

Definition to_int_str (da : list (option Z)) : list string :=
  map Fmt.int_str da.

(** binary64 constants used in the examples *)
Definition f64_1 : spec_float := S754_finite false 4503599627370496 (-52).

Definition f64_2 : spec_float := S754_finite false 4503599627370496 (-51).

Definition f64_3 : spec_float := S754_finite false 6755399441055744 (-51).

Definition f64_10 : spec_float := S754_finite false 5629499534213120 (-49).

Definition f64_1_128 : spec_float := S754_finite false 4503599627370496 (-59).

(** ** The model, as [io.py] reads it *)

(** One cell of a term table: [coeffs] and [vars] at the same index. *)
Record term : Type := Term { coeff : spec_float; var : option Z }.

(** One cell of the constraint tables: the label, the cells of the term
    axis, the sign and the right-hand side at the same index. *)
Record con_row : Type := ConRow {
  con_label : option Z;
  con_terms : list term;
  con_sign : option string;
  con_rhs : spec_float
}.

(** One cell of the variable tables: label and the two bounds. *)
Record var_row : Type := VarRow {
  var_label : option Z;
  var_lower : spec_float;
  var_upper : spec_float
}.

(** A [Dataset]: named data variables in insertion order, each one a
    flattened array. *)
Definition Dataset (A : Type) : Type := list (string * list A).

Definition ds_map {A B} (f : A -> B) (ds : Dataset A) : Dataset B :=
  map (fun kv => (fst kv, map f (snd kv))) ds.

(** All cells of a dataset, data variable by data variable. *)
Definition ds_cells {A} (ds : Dataset A) : list A := concat (map snd ds).

Fixpoint ds_lookup {A} (ds : Dataset A) (k : string) : option (list A) :=
  match ds with
  | [] => None
  | (k', a) :: ds' => if String.eqb k k' then Some a else ds_lookup ds' k
  end.

(** [d[k] = a] on an insertion-ordered [dict]. *)
Fixpoint dict_set {A} (d : Dataset A) (k : string) (a : list A) : Dataset A :=
  match d with
  | [] => [(k, a)]
  | (k', a') :: d' =>
      if String.eqb k k' then (k, a) :: d' else (k', a') :: dict_set d' k a
  end.

(** [ds[names]] with a list of names: the listed data variables, in the
    order of the list; [KeyError] on a name that is not in [ds]. *)
Fixpoint ds_getitem_from {A} (ds : Dataset A) (names : list string)
    (acc : Dataset A) : result (Dataset A) :=
  match names with
  | [] => ret acc
  | n :: names' =>
      match ds_lookup ds n with
      | None => raise (KeyError n)
      | Some a => ds_getitem_from ds names' (dict_set acc n a)
      end
  end.

Definition ds_getitem {A} (ds : Dataset A) (names : list string)
  : result (Dataset A) := ds_getitem_from ds names [].

Record Model : Type := {
  objective : list term;
  variable_rows : Dataset var_row;
  _non_binary_variables : list string;
  binaries : Dataset (option Z);
  constraint_rows : Dataset con_row
}.

(** The attributes that [io.py] reads. *)
Definition coeffs (e : list term) : list spec_float := map coeff e.

Definition vars (e : list term) : list (option Z) := map var e.

Definition variables (m : Model) := ds_map var_label (variable_rows m).

Definition variables_lower_bound (m : Model) := ds_map var_lower (variable_rows m).

Definition variables_upper_bound (m : Model) := ds_map var_upper (variable_rows m).

Definition constraints (m : Model) := ds_map con_label (constraint_rows m).

Definition constraints_lhs_coeffs (m : Model) :=
  ds_map (fun r => coeffs (con_terms r)) (constraint_rows m).

Definition constraints_lhs_vars (m : Model) :=
  ds_map (fun r => vars (con_terms r)) (constraint_rows m).

Definition constraints_sign (m : Model) := ds_map con_sign (constraint_rows m).

Definition constraints_rhs (m : Model) := ds_map con_rhs (constraint_rows m).

(** ** String tables *)

(** An element of the list given to [join_str_arrays]: a literal or a table. *)
Inductive operand : Type :=
  | OConst (s : string)
  | OTable (t : list pyobj).

(** The accumulator of the [reduce]: it starts as [""] and stays a string or
    a table of strings as long as no addition fails. *)
Inductive strtab : Type :=
  | SConst (s : string)
  | STable (t : list string).

Definition strs (l : list string) : operand := OTable (map PStr l).

(** [a + b] for a [str] on the left. *)
Definition add_obj (a : string) (b : pyobj) : result string :=
  match b with
  | PStr s => ret (a +:+ s)
  | PNaN | PInt _ => raise TypeError
  end.

Fixpoint add_tables (a : list string) (b : list pyobj) : result (list string) :=
  match a, b with
  | x :: a', y :: b' =>
      let* z := add_obj x y in let* zs := add_tables a' b' in ret (z :: zs)
  | _, _ => ret []
  end.

(** [np.add(acc, x, dtype=object)]: elementwise, a literal is broadcast. *)
Definition np_add (acc : strtab) (x : operand) : result strtab :=
  match acc, x with
  | SConst a, OConst b => ret (SConst (a +:+ b))
  | SConst a, OTable t =>
      let* r := mapM (add_obj a) t in ret (STable r)
  | STable t, OConst b =>
      ret (STable (map (fun a => a +:+ b) t))
  | STable t, OTable u =>
      let* r := add_tables t u in ret (STable r)
  end.

Fixpoint reduce_add (arraylist : list operand) (acc : strtab) : result strtab :=
  match arraylist with
  | [] => ret acc
  | x :: rest => let* acc' := np_add acc x in reduce_add rest acc'
  end.

(** [join_str_arrays(arraylist)]: [reduce(func, arraylist, "")]. *)
Definition join_str_arrays (arraylist : list operand) : result strtab :=
  reduce_add arraylist (SConst "").

(** [array.where(cond, "")]; a bare [str] has no such method. *)
Definition where_ (array : strtab) (cond : list bool) (other : string)
  : result (list string) :=
  match array with
  | SConst _ => raise (AttributeError "where")
  | STable t => ret (zip_with (fun s (c : bool) => if c then s else other) t cond)
  end.

(** [np.sum] of strings along one axis: left to right concatenation, and
    the integer [0] when the axis is empty. *)
Definition np_sum (l : list string) : pyobj :=
  match l with
  | [] => PInt 0
  | _ => PStr (String.concat "" l)
  end.

(** [da != -1] and [da.notnull()] on label and sign cells. *)
Definition ne_sentinel (l : option Z) : bool :=
  match l with
  | Some z => negb (z =? -1)
  | None => true
  end.

Definition notnull_obj {A} (o : option A) : bool :=
  match o with
  | Some _ => true
  | None => false
  end.

Definition sign_obj (o : option string) : pyobj :=
  match o with
  | Some s => PStr s
  | None => PNaN
  end.

(** ** The file handle *)

(** What has been written so far, one entry per [f.write] call. *)
Definition file : Type := list string.

(** A computation that writes to the handle and may raise; what was written
    before the exception stays in the file. *)
Definition io (A : Type) : Type := file -> result A * file.

Definition io_ret {A} (a : A) : io A := fun f => (ret a, f).

Definition io_lift {A} (r : result A) : io A := fun f => (r, f).

Definition io_bind {A B} (c : io A) (k : A -> io B) : io B :=
  fun f =>
    match c f with
    | (inl e, f') => (inl e, f')
    | (inr a, f') => k a f'
    end.

Notation "'io_let' x ':=' c 'in' k" := (io_bind c (fun x => k))
  (at level 10, x name, c at level 100, k at level 200).

Notation "c ';;' k" := (io_bind c (fun _ => k))
  (at level 100, k at level 200, right associativity).

(** [f.write(s)] *)
Definition write (s : string) : io unit := fun f => (ret tt, f ++ [s]).

(** [str_array_to_file(array, fn)] on a table in memory: [fn.write(x)] for
    every cell [x] in turn.  (For a chunked table see [str_array_to_file_on]
    below.) *)
Fixpoint str_array_to_file (array : list string) : io unit :=
  match array with
  | [] => io_ret tt
  | x :: rest => write x ;; str_array_to_file rest
  end.

(** ** The four sections *)

Definition objective_to_file (m : Model) : io unit :=
  write ("min" +:+ nl +:+ "obj:" +:+ nl) ;;
  let coef := coeffs (objective m) in
  let var := vars (objective m) in
  let nonnans := zip_with andb (map Fmt.notnull coef) (map ne_sentinel var) in
  let join := [strs (to_float_str coef); OConst " x"; strs (to_int_str var); OConst nl] in
  io_let joined := io_lift (join_str_arrays join) in
  io_let objective_str := io_lift (where_ joined nonnans "") in
  str_array_to_file objective_str.

(** The left-hand side of one cell of the constraint tables: the join, the
    mask and the reduction act along its term axis. *)
Definition lhs_row (coef : list spec_float) (var : list (option Z))
  : result (bool * pyobj) :=
  let nonnans := zip_with andb (map Fmt.notnull coef) (map ne_sentinel var) in
  let join := [strs (to_float_str coef); OConst " x"; strs (to_int_str var); OConst nl] in
  let* joined := join_str_arrays join in
  let* masked := where_ joined nonnans "" in
  ret (existsb id nonnans, np_sum masked).

Definition constraints_to_file (m : Model) : io unit :=
  write (nl +:+ nl +:+ "s.t." +:+ nl +:+ nl) ;;
  let con := ds_cells (constraints m) in
  let coef := ds_cells (constraints_lhs_coeffs m) in
  let var := ds_cells (constraints_lhs_vars m) in
  let sign := ds_cells (constraints_sign m) in
  let rhs := ds_cells (constraints_rhs m) in
  io_let lhs := io_lift (mapM (fun cv => lhs_row (fst cv) (snd cv)) (zip coef var)) in
  let lhs_str := map snd lhs in
  let nonnans :=
    zip_with andb
      (zip_with andb
         (zip_with andb (map fst lhs) (map ne_sentinel con))
         (map notnull_obj sign))
      (map Fmt.notnull rhs) in
  let join :=
    [ OConst "c";
      strs (to_int_str con);
      OConst (": " +:+ nl);
      OTable lhs_str;
      OTable (map sign_obj sign);
      OConst nl;
      strs (to_float_str rhs);
      OConst (nl +:+ nl) ] in
  io_let joined := io_lift (join_str_arrays join) in
  io_let constraints_str := io_lift (where_ joined nonnans "") in
  str_array_to_file constraints_str.

Definition bounds_to_file (m : Model) : io unit :=
  write (nl +:+ "bounds" +:+ nl) ;;
  io_let lb_ds := io_lift (ds_getitem (variables_lower_bound m) (_non_binary_variables m)) in
  io_let v_ds := io_lift (ds_getitem (variables m) (_non_binary_variables m)) in
  io_let ub_ds := io_lift (ds_getitem (variables_upper_bound m) (_non_binary_variables m)) in
  let lb := ds_cells lb_ds in
  let v := ds_cells v_ds in
  let ub := ds_cells ub_ds in
  let nonnans :=
    zip_with andb
      (zip_with andb (map Fmt.notnull lb) (map Fmt.notnull ub))
      (map ne_sentinel v) in
  let join :=
    [ strs (to_float_str lb); OConst " <= x"; strs (to_int_str v);
      OConst " <= "; strs (to_float_str ub); OConst nl ] in
  io_let joined := io_lift (join_str_arrays join) in
  io_let bounds_str := io_lift (where_ joined nonnans "") in
  str_array_to_file bounds_str.

Definition binaries_to_file (m : Model) : io unit :=
  write (nl +:+ "binary" +:+ nl) ;;
  let v := ds_cells (binaries m) in
  let nonnans := map ne_sentinel v in
  io_let joined := io_lift
    (join_str_arrays [OConst "x"; strs (to_int_str (ds_cells (binaries m))); OConst nl]) in
  io_let binaries_str := io_lift (where_ joined nonnans "") in
  str_array_to_file binaries_str ;;
  write ("end" +:+ nl).

(** ** [to_file] *)

(** The four writers in the order of the [with] block, on a fresh handle. *)
Definition export (m : Model) : io unit :=
  objective_to_file m ;;
  constraints_to_file m ;;
  bounds_to_file m ;;
  binaries_to_file m.

(** The text in a file: everything written, in the order of the writes. *)
Definition contents (f : file) : string := String.concat "" f.

(** [to_file(m, fn)] on a file system that maps paths to their text, for a
    path that can be removed and opened for writing: an existing file is
    removed first, the handle is opened for writing, and whatever was
    written is in the file when the handle is closed. *)
Definition to_file (m : Model) (fn : string) (fs : gmap string string)
  : result unit * gmap string string :=
  let fs1 := if bool_decide (is_Some (fs !! fn)) then delete fn fs else fs in
  let '(r, f) := export m [] in
  (r, <[fn := contents f]> fs1).

(** ** The example of the specification *)

Definition example_model : Model := {|
  objective := [Term f64_1 (Some 0)];
  variable_rows :=
    [("x", [VarRow (Some 0) S754_nan S754_nan; VarRow (Some 1) S754_nan S754_nan])];
  _non_binary_variables := ["x"];
  binaries := [];
  constraint_rows :=
    [("con0", [ConRow (Some 0) [Term f64_2 (Some 0); Term f64_3 (Some 1)]
                      (Some "<=") f64_10])]
|}.

Definition example_text : string :=
  "min" +:+ nl +:+ "obj:" +:+ nl +:+ "+1.000000 x0" +:+ nl +:+ nl +:+ nl +:+
  "s.t." +:+ nl +:+ nl +:+ "c0: " +:+ nl +:+ "+2.000000 x0" +:+ nl +:+
  "+3.000000 x1" +:+ nl +:+ "<=" +:+ nl +:+ "+10.000000" +:+ nl +:+ nl +:+ nl +:+
  "bounds" +:+ nl +:+ nl +:+ "binary" +:+ nl +:+ "end" +:+ nl.

(** ** What one cell contributes *)

(** The mask of a term cell, its line, and the masked line. *)
Definition term_valid (t : term) : bool :=
  Fmt.notnull (coeff t) && ne_sentinel (var t).

Definition term_line (t : term) : string :=
  Fmt.float_str (coeff t) +:+ " x" +:+ Fmt.int_str (var t) +:+ nl.

Definition masked_term (t : term) : string :=
  if term_valid t then term_line t else "".

(** ** The strings of the four sections, cell by cell *)

(** An element of an object array is a [str], and the [str] it is. *)
Definition is_str (o : pyobj) : bool :=
  match o with
  | PStr _ => true
  | _ => false
  end.

Definition str_of (o : pyobj) : string :=
  match o with
  | PStr s => s
  | _ => ""
  end.

Definition objective_header : string := "min" +:+ nl +:+ "obj:" +:+ nl.

(** The rows of the constraint tables, in the order in which they are visited. *)
Definition con_rows (m : Model) : list con_row := ds_cells (constraint_rows m).

(** The mask of a row. *)
Definition row_valid (r : con_row) : bool :=
  existsb term_valid (con_terms r) && ne_sentinel (con_label r)
  && notnull_obj (con_sign r) && Fmt.notnull (con_rhs r).

(** The reduced left-hand side of a row. *)
Definition lhs_text (r : con_row) : pyobj := np_sum (map masked_term (con_terms r)).

(** The block of a row whose parts are all strings. *)
Definition block (r : con_row) : string :=
  "c" +:+ Fmt.int_str (con_label r) +:+ ": " +:+ nl
  +:+ str_of (lhs_text r)
  +:+ str_of (sign_obj (con_sign r)) +:+ nl
  +:+ Fmt.float_str (con_rhs r) +:+ nl +:+ nl.

Definition masked_block (r : con_row) : string :=
  if row_valid r then block r else "".

(** The join of the constraints section adds strings only: no row has an
    empty term axis and no row has a null sign. *)
Definition joinable (m : Model) : bool :=
  forallb (fun r => is_str (lhs_text r)) (con_rows m)
  && forallb (fun r => is_str (sign_obj (con_sign r))) (con_rows m).

Definition constraints_header : string := nl +:+ nl +:+ "s.t." +:+ nl +:+ nl.

(** The mask of a variable cell, its line, and the masked line. *)
Definition bound_valid (r : var_row) : bool :=
  Fmt.notnull (var_lower r) && Fmt.notnull (var_upper r) && ne_sentinel (var_label r).

Definition bound_line (r : var_row) : string :=
  Fmt.float_str (var_lower r) +:+ " <= x" +:+ Fmt.int_str (var_label r)
  +:+ " <= " +:+ Fmt.float_str (var_upper r) +:+ nl.

Definition masked_bound (r : var_row) : string :=
  if bound_valid r then bound_line r else "".

(** The cells selected by [m._non_binary_variables]. *)
Definition non_binary_rows (m : Model) : result (list var_row) :=
  let* d := ds_getitem (variable_rows m) (_non_binary_variables m) in
  ret (ds_cells d).

Definition bounds_header : string := nl +:+ "bounds" +:+ nl.

(** ** The binaries section *)

Definition binary_line (l : option Z) : string := "x" +:+ Fmt.int_str l +:+ nl.

Definition masked_binary (l : option Z) : string :=
  if ne_sentinel l then binary_line l else "".

Definition binaries_header : string := nl +:+ "binary" +:+ nl.

Definition terminator : string := "end" +:+ nl.

(** ** The whole export *)

(** What the objective and the binaries writers put into the file. *)
Definition objective_writes (m : Model) : list string :=
  objective_header :: map masked_term (objective m).

Definition constraints_writes (m : Model) : list string :=
  constraints_header :: map masked_block (con_rows m).

Definition bounds_writes (rows : list var_row) : list string :=
  bounds_header :: map masked_bound rows.

Definition binaries_writes (m : Model) : list string :=
  binaries_header :: map masked_binary (ds_cells (binaries m)) ++ [terminator].

(** The label as it is printed. *)
Definition label_id (r : con_row) : Z := default 0 (con_label r).

(** The rows that have a block in the file, in the order of their blocks. *)
Definition emitted_rows (m : Model) : list con_row :=
  List.filter row_valid (con_rows m).

(** The blocks of the file carry ascending labels. *)
Definition blocks_ascending (m : Model) : Prop :=
  StronglySorted Z.lt (map label_id (emitted_rows m)).

(** ** Models for the counterexamples *)

(** Two valid rows, stored with label 1 before label 0. *)
Definition descending_model : Model := {|
  objective := [Term f64_1 (Some 0)];
  variable_rows := [("x", [VarRow (Some 0) S754_nan S754_nan])];
  _non_binary_variables := ["x"];
  binaries := [];
  constraint_rows :=
    [("con0", [ConRow (Some 1) [Term f64_2 (Some 0)] (Some "<=") f64_10;
               ConRow (Some 0) [Term f64_3 (Some 0)] (Some ">=") f64_1])]
|}.

(** A valid row followed by a row whose sign is null. *)
Definition null_sign_model : Model := {|
  objective := [Term f64_1 (Some 0)];
  variable_rows := [("x", [VarRow (Some 0) S754_nan S754_nan])];
  _non_binary_variables := ["x"];
  binaries := [];
  constraint_rows :=
    [("con0", [ConRow (Some 0) [Term f64_2 (Some 0)] (Some "<=") f64_10;
               ConRow (Some 1) [Term f64_3 (Some 0)] None f64_1])]
|}.


(** ** Tables in memory and chunked tables *)

(** How the cells of a table are held.  The cells of a table in memory are
    visited one after the other in the order of the table.  The cells of a
    chunked table are computed, and [fn.write] is called on them, by a
    scheduler when [.compute()] is reached: which cells it has written, in
    which order, and what it returns is not decided in [io.py].  [run] is
    the scheduler: from the table that the section has built, or the
    exception that building it raises, to what the computation returns and
    what it has written. *)
Inductive backing : Type :=
  | InMemory
  | Chunked (run : result (list string) -> result unit * list string).

(** [str_array_to_file(array, f).compute()] on either kind of table. *)
Definition str_array_to_file_on (b : backing) (array : result (list string))
  : io unit :=
  match b with
  | InMemory => io_let a := io_lift array in str_array_to_file a
  | Chunked run => fun f => let '(r, w) := run array in (r, f ++ w)
  end.

(** The table [constraints_str] of [constraints_to_file]. *)
Definition constraints_str (m : Model) : result (list string) :=
  let con := ds_cells (constraints m) in
  let coef := ds_cells (constraints_lhs_coeffs m) in
  let var := ds_cells (constraints_lhs_vars m) in
  let sign := ds_cells (constraints_sign m) in
  let rhs := ds_cells (constraints_rhs m) in
  let* lhs := mapM (fun cv => lhs_row (fst cv) (snd cv)) (zip coef var) in
  let lhs_str := map snd lhs in
  let nonnans :=
    zip_with andb
      (zip_with andb
         (zip_with andb (map fst lhs) (map ne_sentinel con))
         (map notnull_obj sign))
      (map Fmt.notnull rhs) in
  let join :=
    [ OConst "c";
      strs (to_int_str con);
      OConst (": " +:+ nl);
      OTable lhs_str;
      OTable (map sign_obj sign);
      OConst nl;
      strs (to_float_str rhs);
      OConst (nl +:+ nl) ] in
  let* joined := join_str_arrays join in
  where_ joined nonnans "".

(** [constraints_to_file] with the kind of the constraint tables made
    explicit; [constraints_to_file] is the case of tables in memory. *)
Definition constraints_to_file_on (b : backing) (m : Model) : io unit :=
  write (nl +:+ nl +:+ "s.t." +:+ nl +:+ nl) ;;
  str_array_to_file_on b (constraints_str m).

(** Three rows with ascending labels: two valid rows whose term axes are
    padded at different places, and a row without right-hand side. *)
Definition ragged_model : Model := {|
  objective := [Term f64_1 (Some 0)];
  variable_rows :=
    [("x", [VarRow (Some 0) S754_nan S754_nan; VarRow (Some 1) S754_nan S754_nan])];
  _non_binary_variables := ["x"];
  binaries := [];
  constraint_rows :=
    [("con0",
      [ConRow (Some 0)
         [Term f64_2 (Some 0); Term S754_nan (Some (-1)); Term f64_3 (Some 1)]
         (Some "<=") f64_10;
       ConRow (Some 1)
         [Term S754_nan (Some (-1)); Term f64_1 (Some 1); Term S754_nan (Some (-1))]
         (Some ">=") f64_1;
       ConRow (Some 2)
         [Term f64_1 (Some 0); Term S754_nan (Some (-1)); Term S754_nan (Some (-1))]
         (Some "=") S754_nan])]
|}.

(** A scheduler that computes the chunks, one cell each, from the last to
    the first. *)
Definition last_chunk_first (array : result (list string))
  : result unit * list string :=
  match array with
  | inl e => (inl e, [])
  | inr a => (inr tt, rev a)
  end.

(** A zero coefficient in the objective and in a valid row. *)
Definition zero_row_model : Model := {|
  objective := [Term f64_1 (Some 0); Term (S754_zero false) (Some 7)];
  variable_rows := [];
  _non_binary_variables := [];
  binaries := [];
  constraint_rows :=
    [("con0", [ConRow (Some 0) [Term f64_2 (Some 0); Term (S754_zero false) (Some 7)]
                      (Some "<=") f64_10])]
|}.

(** A negative zero in the objective, and a zero coefficient in a row that
    has no right-hand side. *)
Definition zero_edge_model : Model := {|
  objective := [Term (S754_zero true) (Some 7)];
  variable_rows := [];
  _non_binary_variables := [];
  binaries := [];
  constraint_rows :=
    [("con0", [ConRow (Some 0) [Term (S754_zero false) (Some 7)] (Some "<=") S754_nan])]
|}.

(** A null label in the objective, in a valid row and among the binaries. *)
Definition null_label_row_model : Model := {|
  objective := [Term f64_2 None];
  variable_rows := [];
  _non_binary_variables := [];
  binaries := [("b", [Some 3; None])];
  constraint_rows :=
    [("con0", [ConRow (Some 0) [Term f64_3 None; Term f64_1 (Some 1)] (Some ">=") f64_1])]
|}.

(** A null label in a row that has no right-hand side. *)
Definition null_label_edge_model : Model := {|
  objective := [];
  variable_rows := [];
  _non_binary_variables := [];
  binaries := [];
  constraint_rows :=
    [("con0", [ConRow (Some 0) [Term f64_3 None] (Some ">=") S754_nan])]
|}.

(** ** Reading a join cell by cell *)

(** The cell of an operand at index [i]; a literal is broadcast. *)
Definition operand_cell (x : operand) (i : nat) : pyobj :=
  match x with
  | OConst s => PStr s
  | OTable t => default (PStr "") (t !! i)
  end.

Definition is_table (x : operand) : bool :=
  match x with
  | OTable _ => true
  | OConst _ => false
  end.

(** The operand is a literal or a table of [n] cells. *)
Definition operand_fits (n : nat) (x : operand) : bool :=
  match x with
  | OConst _ => true
  | OTable t => (length t =? n)%nat
  end.

(** Every cell of the operand is a [str]. *)
Definition operand_strs (x : operand) : bool :=
  match x with
  | OConst _ => true
  | OTable t => forallb is_str t
  end.

(** The cells at index [i], concatenated in the order of the list. *)
Definition joined_cell (arraylist : list operand) (i : nat) : string :=
  String.concat "" (map (fun x => str_of (operand_cell x i)) arraylist).

(** The same for the accumulator of the [reduce]. *)
Definition strtab_cell (r : strtab) (i : nat) : string :=
  match r with
  | SConst a => a
  | STable t => default "" (t !! i)
  end.

Definition strtab_fits (n : nat) (r : strtab) : bool :=
  match r with
  | SConst _ => true
  | STable t => (length t =? n)%nat
  end.

Definition strtab_is_table (r : strtab) : bool :=
  match r with
  | SConst _ => false
  | STable _ => true
  end.

(** ** The order of a selection *)



(** A valid row, a row without right-hand side, a row with the sentinel
    label and a row whose only term is padding; every sign is a string. *)
Definition skipped_rows_model : Model := {|
  objective := [];
  variable_rows := [];
  _non_binary_variables := [];
  binaries := [];
  constraint_rows :=
    [("con0", [ConRow (Some 0) [Term f64_2 (Some 0)] (Some "<=") f64_10;
               ConRow (Some 1) [Term f64_3 (Some 0)] (Some "<=") S754_nan;
               ConRow (Some (-1)) [Term f64_3 (Some 0)] (Some "=") f64_1;
               ConRow (Some 3) [Term S754_nan (Some (-1))] (Some ">=") f64_1])]
|}.

(** ** The shape of the formatted numbers *)

Definition is_digit (c : ascii) : bool :=
  match c with
  | "0" | "1" | "2" | "3" | "4" | "5" | "6" | "7" | "8" | "9" => true
  | _ => false
  end%char.

Fixpoint all_digits (s : string) : bool :=
  match s with
  | EmptyString => true
  | String c s' => is_digit c && all_digits s'
  end.

(** A plain decimal integer: digits only, at least one, no sign, and no
    leading zero unless the number is ["0"]. *)
Definition plain_decimal (s : string) : bool :=
  match s with
  | EmptyString => false
  | String c rest =>
      all_digits s && (negb (Ascii.eqb c "0") || String.eqb rest "")
  end.

(** The text before and after the first point. *)
Fixpoint split_dot (s : string) : option (string * string) :=
  match s with
  | EmptyString => None
  | String c s' =>
      if Ascii.eqb c "." then Some (EmptyString, s')
      else match split_dot s' with
           | Some (a, b) => Some (String c a, b)
           | None => None
           end
  end.

(** One sign character, a plain decimal integer part, a point, and exactly
    six digits: no exponent, no separator, nothing else. *)
Definition signed_fixed6 (s : string) : bool :=
  match s with
  | EmptyString => false
  | String c s' =>
      (Ascii.eqb c "+" || Ascii.eqb c "-")
      && match split_dot s' with
         | Some (ip, fp) =>
             plain_decimal ip && (String.length fp =? 6)%nat && all_digits fp
         | None => false
         end
  end.

Definition finite_or_null (v : spec_float) : bool :=
  match v with
  | S754_infinity _ => false
  | _ => true
  end.

Definition label_nonneg (l : option Z) : bool :=
  match l with
  | Some z => 0 <=? z
  | None => true
  end.

(** ** The netCDF snapshot: [to_netcdf] and [read_netcdf] *)

(** [k.startswith(p)] *)
Fixpoint startswith (p k : string) : bool :=
  match p, k with
  | EmptyString, _ => true
  | String a p', String b k' => Ascii.eqb a b && startswith p' k'
  | String _ _, EmptyString => false
  end.

(** [k[n:]] *)
Fixpoint slice_from (n : nat) (k : string) : string :=
  match n, k with
  | O, _ => k
  | S n', String _ k' => slice_from n' k'
  | S _, EmptyString => EmptyString
  end.

(** No ['-'] in a name. *)
Fixpoint hyphen_free (s : string) : bool :=
  match s with
  | EmptyString => true
  | String c s' => negb (Ascii.eqb c "-") && hyphen_free s'
  end.

Section Snapshot.

(** The content of a data variable and the value of a scalar attribute are
    kept abstract: the snapshot only names, stores and returns them. *)
Context {table scalar : Type} `{EqDecision table}.

(** The data variables of a [Dataset], by name. *)
Abbreviation group := (gmap string table).

(** What an attribute of the model holds: a plain [Dataset], a
    [LinearExpression], or a scalar. *)
Inductive attr_value : Type :=
  | ADataset (d : group)
  | ALinearExpression (d : group)
  | AScalar (v : scalar).

(** The enumerations [array_attrs] and [obj_attrs] of [linopy.model] and
    the attributes of a freshly constructed [Model()]; they are declared
    outside [io.py]. *)
Variable array_attrs : list string.

Variable obj_attrs : list string.

Variable Model_init : gmap string attr_value.

(** The model as the object whose attributes are read and set by name. *)
Abbreviation model := (gmap string attr_value).

(** The container that is written to the file: the merged data variables
    and the container-level attributes. *)
Record container : Type := Container {
  c_vars : group;
  c_attrs : gmap string scalar
}.

Definition getattr (m : model) (k : string) : result attr_value :=
  match m !! k with
  | Some v => ret v
  | None => raise (AttributeError k)
  end.

Definition setattr (m : model) (k : string) (v : attr_value) : model :=
  <[k := v]> m.

Definition as_dataset (v : attr_value) : result group :=
  match v with
  | ADataset d | ALinearExpression d => ret d
  | AScalar _ => raise TypeError
  end.

Definition as_scalar (v : attr_value) : result scalar :=
  match v with
  | AScalar s => ret s
  | ADataset _ | ALinearExpression _ => raise TypeError
  end.

(** [attr + "-" + v] *)
Definition prefixed (attr v : string) : string := attr +:+ "-" +:+ v.

(** [get_and_rename(m, attr)] *)
Definition get_and_rename (m : model) (attr : string) : result group :=
  let* v := getattr m attr in
  let* ds := as_dataset v in
  ret (kmap (prefixed attr) ds).

(** [xr.merge] on datasets that are aligned already: the union of the data
    variables; two datasets that give different values to one name cannot
    be merged.  The alignment that [xr.merge] performs first is
    [Labelled.align] below. *)
Fixpoint merge (dss : list group) : result group :=
  match dss with
  | [] => ret ∅
  | ds :: rest =>
      let* r := merge rest in
      if decide (map_agree ds r) then ret (ds ∪ r) else raise MergeError
  end.

(** [{k: getattr(m, k) for k in obj_attrs}] *)
Fixpoint collect_attrs (m : model) (ks : list string) (acc : gmap string scalar)
  : result (gmap string scalar) :=
  match ks with
  | [] => ret acc
  | k :: ks' =>
      let* v := getattr m k in
      let* s := as_scalar v in
      collect_attrs m ks' (<[k := s]> acc)
  end.

(** [to_netcdf(m, path)] for categories that are aligned already and scalar
    attributes that the writer accepts: the file then holds the container.
    [Labelled.to_netcdf] below is the function without these conditions. *)
Definition to_netcdf (m : model) (path : string) (fs : gmap string container)
  : result (gmap string container) :=
  let* renamed := mapM (get_and_rename m) array_attrs in
  let* ds := merge renamed in
  let* attrs := collect_attrs m obj_attrs ∅ in
  ret (<[path := Container ds attrs]> fs).

(** [all_ds[keys].rename({k: k[len(attr) + 1:] for k in keys})] with
    [keys = [k for k in all_ds if k.startswith(attr + "-")]] *)
Definition select_and_strip (all_ds : group) (attr : string) : group :=
  list_to_map
    (omap (fun kv : string * table =>
             if startswith (attr +:+ "-") (fst kv)
             then Some (slice_from (String.length attr + 1) (fst kv), snd kv)
             else None)
          (map_to_list all_ds)).

(** The first loop of [read_netcdf]; the second component is the variable
    [ds] after the loop, of which only the attributes are used later, and
    which is unbound when the loop body never ran.  A category is set to the
    selected data variables; the attributes that the selection inherits from
    the container are not part of a [group]. *)
Fixpoint load_arrays (all_ds : container) (attrs : list string)
    (st : model * option (gmap string scalar))
  : model * option (gmap string scalar) :=
  match attrs with
  | [] => st
  | attr :: rest =>
      let ds := select_and_strip (c_vars all_ds) attr in
      load_arrays all_ds rest (setattr (fst st) attr (ADataset ds), Some (c_attrs all_ds))
  end.

(** Modelled from the spec: the constructor [LinearExpression] of
    [linopy.model], which is not part of [io.py]; by section 4.3 it
    rebuilds the objective as a term-table entity from its raw fields. *)
Definition LinearExpression (v : attr_value) : result attr_value :=
  let* d := as_dataset v in ret (ALinearExpression d).

(** [for k in obj_attrs: setattr(m, k, ds.attrs.pop(k))] *)
Fixpoint load_attrs (ks : list string) (m : model) (attrs : gmap string scalar)
  : result model :=
  match ks with
  | [] => ret m
  | k :: ks' =>
      match attrs !! k with
      | None => raise (KeyError k)
      | Some s => load_attrs ks' (setattr m k (AScalar s)) (delete k attrs)
      end
  end.

(** [read_netcdf(path)] *)
Definition read_netcdf (path : string) (fs : gmap string container)
  : result model :=
  let m := Model_init in
  let* all_ds :=
    match fs !! path with
    | Some c => ret c
    | None => raise (FileNotFoundError path)
    end in
  let '(m1, ds) := load_arrays all_ds array_attrs (m, None) in
  let* o := getattr m1 "objective" in
  let* e := LinearExpression o in
  let m2 := setattr m1 "objective" e in
  match obj_attrs with
  | [] => ret m2
  | _ :: _ =>
      match ds with
      | None => raise (NameError "ds")
      | Some attrs => load_attrs obj_attrs m2 attrs
      end
  end.

(** The dataset held by an attribute, when it holds one. *)
Definition dataset_of (m : model) (a : string) : group :=
  match m !! a with
  | Some (ADataset d) | Some (ALinearExpression d) => d
  | _ => ∅
  end.

Definition scalar_of (m : model) (k : string) : option scalar :=
  match m !! k with
  | Some (AScalar s) => Some s
  | _ => None
  end.

Definition holds_dataset (m : model) (a : string) : bool :=
  match m !! a with
  | Some (ADataset _) => negb (String.eqb a "objective")
  | Some (ALinearExpression _) => String.eqb a "objective"
  | _ => false
  end.

Definition holds_scalar (m : model) (k : string) : bool :=
  match m !! k with
  | Some (AScalar _) => true
  | _ => false
  end.

(** The enumerations are usable: no category name contains ['-'], the
    objective is one of the categories, no scalar attribute is listed twice. *)
Definition enumerations_ok : bool :=
  forallb hyphen_free array_attrs
  && existsb (String.eqb "objective") array_attrs
  && bool_decide (NoDup obj_attrs).

(** The model is built from the enumerations: every category holds a
    dataset (the objective a [LinearExpression]), every scalar attribute a
    scalar. *)
Definition model_ok (m : model) : bool :=
  forallb (holds_dataset m) array_attrs && forallb (holds_scalar m) obj_attrs.

End Snapshot.

(** ** The snapshot of a small model *)

(** The categories that [io.py] reads from the model, and two scalar
    attributes; a fresh model has no attribute. *)
Definition example_array_attrs : list string :=
  ["variables"; "variables_lower_bound"; "variables_upper_bound"; "binaries";
   "constraints"; "constraints_lhs_coeffs"; "constraints_lhs_vars";
   "constraints_sign"; "constraints_rhs"; "objective"].

Definition example_obj_attrs : list string := ["objective_value"; "status"].

(** Tables of integers, scalars that are strings.  The model has two
    variables, no constraint at all, and an objective whose only term is
    padding. *)
Definition snapshot_model : gmap string (@attr_value (list Z) string) :=
  list_to_map
    [("variables", ADataset (list_to_map [("x", [0; 1])]));
     ("variables_lower_bound", ADataset (list_to_map [("x", [0; 0])]));
     ("variables_upper_bound", ADataset (list_to_map [("x", [5; 5])]));
     ("binaries", ADataset ∅);
     ("constraints", ADataset ∅);
     ("constraints_lhs_coeffs", ADataset ∅);
     ("constraints_lhs_vars", ADataset ∅);
     ("constraints_sign", ADataset ∅);
     ("constraints_rhs", ADataset ∅);
     ("objective",
      ALinearExpression (list_to_map [("coeffs", [0]); ("vars", [-1])]));
     ("objective_value", AScalar "nan");
     ("status", AScalar "initialized")].

(** A container with the objective only: no key starts with
    ["constraints-"]. *)
Definition objective_only : @container (list Z) string :=
  Container
    (list_to_map [("objective-coeffs", [1]); ("objective-vars", [0])])
    (list_to_map [("objective_value", "nan"); ("status", "ok")]).

(** A container that lacks the scalar attribute ["status"]. *)
Definition no_status : @container (list Z) string :=
  Container
    (list_to_map [("objective-coeffs", [1]); ("objective-vars", [0])])
    (list_to_map [("objective_value", "nan")]).

(** ** Well-formed snapshot files *)

(** The key belongs to a category: it starts with a prefix of the
    enumeration. *)
Definition known_key (array_attrs : list string) (k : string) : bool :=
  existsb (fun a => startswith (a +:+ "-") k) array_attrs.

(** A container as [to_netcdf] writes it: every data variable belongs to a
    category, and the attributes are those of the enumeration. *)
Definition container_ok {table scalar : Type} (array_attrs obj_attrs : list string)
    (c : @container table scalar) : bool :=
  forallb (fun kv => known_key array_attrs (fst kv)) (map_to_list (c_vars c))
  && forallb (fun kv => bool_decide (fst kv ∈ obj_attrs)) (map_to_list (c_attrs c))
  && forallb (fun k => bool_decide (is_Some (c_attrs c !! k))) obj_attrs.

(** No name is both a category and a scalar attribute. *)
Definition enumerations_disjoint (array_attrs obj_attrs : list string) : bool :=
  forallb (fun a => bool_decide (a ∉ obj_attrs)) array_attrs.

(** ** The snapshot of labelled tables *)

Module Labelled.

(** The index of a dimension: its labels, or only its size when the
    dimension has no labels. *)
Inductive index : Type :=
  | Labels (l : list Z)
  | NoLabels (n : nat).

#[global] Instance index_eq_dec : EqDecision index.
Proof. solve_decision. Defined.

(** A scalar attribute of the model. *)
Inductive pyscalar : Type :=
  | PyNone
  | PyStr (s : string)
  | PyFloat (f : spec_float).

(** The values that the netCDF writer accepts as an attribute. *)
Definition storable (v : pyscalar) : bool :=
  match v with
  | PyNone => false
  | PyStr _ | PyFloat _ => true
  end.

(** [pd.Index.union] on labels without duplicates: the labels of both, in
    ascending order. *)
Fixpoint insert_label (z : Z) (l : list Z) : list Z :=
  match l with
  | [] => [z]
  | x :: l' =>
      if z <? x then z :: l
      else if z =? x then l
      else x :: insert_label z l'
  end.

Definition sorted_union (a b : list Z) : list Z := foldr insert_label [] (a ++ b).

(** The outer join of two indexes of one dimension: equal indexes are kept as
    they are, an empty one gives way to the other, and labels with
    duplicates cannot be reindexed. *)
Definition join_labels (a b : list Z) : result (list Z) :=
  if decide (a = b) then ret a
  else if bool_decide (NoDup a) && bool_decide (NoDup b) then
    ret (match a, b with
         | [], _ => b
         | _, [] => a
         | _, _ => sorted_union a b
         end)
  else raise ValueError.

Fixpoint position (z : Z) (l : list Z) : option nat :=
  match l with
  | [] => None
  | x :: l' => if decide (x = z) then Some O else S <$> position z l'
  end.

Section Arrays.

Context {cell : Type} `{EqDecision cell}.

(** A data variable: its dimensions, each with its index, and its cells by
    position along the dimensions; a position without a cell holds NaN. *)
Record larray : Type := LArray {
  dims : list (string * index);
  cells : gmap (list nat) cell
}.

#[global] Instance larray_eq_dec : EqDecision larray.
Proof. solve_decision. Defined.

(** The dimensions of all data variables of all datasets. *)
Definition all_dims (dss : list (gmap string larray)) : list (string * index) :=
  dss ≫= (fun ds => map_to_list ds ≫= (fun kv => dims (snd kv))).

(** The joined labels of every labelled dimension. *)
Fixpoint join_all (ds : list (string * index)) (J : gmap string (list Z))
  : result (gmap string (list Z)) :=
  match ds with
  | [] => ret J
  | (d, Labels l) :: rest =>
      match J !! d with
      | None => join_all rest (<[d := l]> J)
      | Some l0 => let* l' := join_labels l0 l in join_all rest (<[d := l']> J)
      end
  | (_, NoLabels _) :: rest => join_all rest J
  end.

(** A dimension without labels cannot be reindexed: its size has to be the
    size of the joined labels, or of every other occurrence. *)
Fixpoint check_sizes (ds : list (string * index)) (J : gmap string (list Z))
    (U : gmap string nat) : result unit :=
  match ds with
  | [] => ret tt
  | (d, NoLabels n) :: rest =>
      match J !! d with
      | Some l =>
          if decide (length l = n) then check_sizes rest J U else raise ValueError
      | None =>
          match U !! d with
          | None => check_sizes rest J (<[d := n]> U)
          | Some k =>
              if decide (k = n) then check_sizes rest J U else raise ValueError
          end
      end
  | (_, Labels _) :: rest => check_sizes rest J U
  end.

Definition new_index (J : gmap string (list Z)) (d : string) (i : index) : index :=
  match J !! d with
  | Some l => Labels l
  | None => i
  end.

(** Where the cell at position [p] goes: to the position of its label among
    the joined labels. *)
Definition new_position (J : gmap string (list Z)) (d : string) (i : index)
    (p : nat) : option nat :=
  match i, J !! d with
  | Labels l, Some l' => l !! p ≫= (fun z => position z l')
  | _, _ => Some p
  end.

Fixpoint new_key (J : gmap string (list Z)) (ds : list (string * index))
    (k : list nat) : option (list nat) :=
  match ds, k with
  | [], [] => Some []
  | (d, i) :: ds', p :: k' =>
      p' ← new_position J d i p; k'' ← new_key J ds' k'; Some (p' :: k'')
  | _, _ => None
  end.

(** [reindex] with the joined labels: the cells move with their labels, the
    positions of the new labels hold NaN. *)
Definition reindex (J : gmap string (list Z)) (a : larray) : larray :=
  LArray
    (map (fun di => (fst di, new_index J (fst di) (snd di))) (dims a))
    (list_to_map
       (omap (fun kv : list nat * cell =>
                k' ← new_key J (dims a) (fst kv); Some (k', snd kv))
             (map_to_list (cells a)))).

(** The alignment that [xr.merge] performs first: an outer join of the
    indexes of every dimension, over all datasets. *)
Definition align (dss : list (gmap string larray))
  : result (list (gmap string larray)) :=
  let ds := all_dims dss in
  let* J := join_all ds ∅ in
  let* _ := check_sizes ds J ∅ in
  ret (map (fmap (reindex J)) dss).

(** [xr.merge]: alignment, then the union of the data variables. *)
Definition xr_merge (dss : list (gmap string larray)) : result (gmap string larray) :=
  let* dss' := align dss in merge dss'.

(** [to_netcdf(m, path)] *)
Definition to_netcdf (array_attrs obj_attrs : list string)
    (m : gmap string (@attr_value larray pyscalar)) (path : string)
    (fs : gmap string (@container larray pyscalar))
  : result (gmap string (@container larray pyscalar)) :=
  let* renamed := mapM (get_and_rename m) array_attrs in
  let* ds := xr_merge renamed in
  let* attrs := collect_attrs m obj_attrs ∅ in
  if forallb (fun kv => storable (snd kv)) (map_to_list attrs)
  then ret (<[path := Container ds attrs]> fs)
  else raise TypeError.

(** [read_netcdf(path)] after [to_netcdf(m, path)] on an empty file system. *)
Definition roundtrip (array_attrs obj_attrs : list string)
    (Model_init m : gmap string (@attr_value larray pyscalar)) (path : string)
  : result (gmap string (@attr_value larray pyscalar)) :=
  let* fs := to_netcdf array_attrs obj_attrs m path ∅ in
  read_netcdf array_attrs obj_attrs Model_init path fs.

(** A position along every dimension, each within the size of its
    dimension. *)
Fixpoint key_ok (ds : list (string * index)) (k : list nat) : bool :=
  match ds, k with
  | [], [] => true
  | (_, i) :: ds', p :: k' =>
      (p <? match i with Labels l => length l | NoLabels n => n end)%nat
      && key_ok ds' k'
  | _, _ => false
  end.

(** The array is well formed: no label occurs twice along a dimension and
    every cell has a position in the array. *)
Definition wf_array (a : larray) : bool :=
  forallb (fun di => match snd di with
                     | Labels l => bool_decide (NoDup l)
                     | NoLabels _ => true
                     end) (dims a)
  && forallb (fun kv => key_ok (dims a) (fst kv)) (map_to_list (cells a)).

(** The datasets are aligned already: they are well formed, and the outer
    join of their indexes changes the index of no dimension of no data
    variable. *)
Definition aligned (dss : list (gmap string larray)) : bool :=
  match join_all (all_dims dss) ∅ with
  | inr J =>
      match check_sizes (all_dims dss) J ∅ with
      | inr _ =>
          forallb
            (fun ds =>
               forallb
                 (fun kv =>
                    wf_array (snd kv)
                    && forallb (fun di => bool_decide
                                            (new_index J (fst di) (snd di) = snd di))
                         (dims (snd kv)))
                 (map_to_list ds))
            dss
      | inl _ => false
      end
  | inl _ => false
  end.

(** The categories of the model are aligned, and its scalar attributes can
    be stored. *)
Definition model_aligned (array_attrs : list string)
    (m : gmap string (@attr_value larray pyscalar)) : bool :=
  match mapM (get_and_rename m) array_attrs with
  | inr renamed => aligned renamed
  | inl _ => false
  end.

Definition model_storable (obj_attrs : list string)
    (m : gmap string (@attr_value larray pyscalar)) : bool :=
  forallb (fun k => match scalar_of m k with
                    | Some v => storable v
                    | None => true
                    end) obj_attrs.

End Arrays.

End Labelled.

(** ** A model whose categories share a dimension *)

(** A data variable over the dimension [dim_0] with the given labels and
    values. *)
Definition over_dim_0 (labels : list Z) (values : list string)
  : @Labelled.larray string :=
  Labelled.LArray [("dim_0", Labelled.Labels labels)]
    (list_to_map (imap (fun i v => ([i], v)) values)).

(** The terms of the constraints over [dim_0]: one more dimension, without
    labels. *)
Definition terms_over_dim_0 (labels : list Z) (values : list (list nat * string))
  : @Labelled.larray string :=
  Labelled.LArray
    [("dim_0", Labelled.Labels labels); ("con0_term", Labelled.NoLabels 2)]
    (list_to_map values).

Definition objective_terms (values : list string) : @Labelled.larray string :=
  Labelled.LArray [("_term", Labelled.NoLabels (length values))]
    (list_to_map (imap (fun i v => ([i], v)) values)).

(** Two variables [x] over the labels 0 and 1 of [dim_0], and one constraint
    [con0] over the label 0 of [dim_0]. *)
Definition shared_dim_model
  : gmap string (@attr_value (@Labelled.larray string) Labelled.pyscalar) :=
  list_to_map
    [("variables", ADataset (list_to_map [("x", over_dim_0 [0; 1] ["0"; "1"])]));
     ("variables_lower_bound",
      ADataset (list_to_map [("x", over_dim_0 [0; 1] ["0.0"; "0.0"])]));
     ("variables_upper_bound",
      ADataset (list_to_map [("x", over_dim_0 [0; 1] ["5.0"; "5.0"])]));
     ("binaries", ADataset ∅);
     ("constraints", ADataset (list_to_map [("con0", over_dim_0 [0] ["0"])]));
     ("constraints_lhs_coeffs",
      ADataset (list_to_map
        [("con0", terms_over_dim_0 [0] [([0; 0]%nat, "2.0"); ([0; 1]%nat, "3.0")])]));
     ("constraints_lhs_vars",
      ADataset (list_to_map
        [("con0", terms_over_dim_0 [0] [([0; 0]%nat, "0"); ([0; 1]%nat, "1")])]));
     ("constraints_sign", ADataset (list_to_map [("con0", over_dim_0 [0] ["<="])]));
     ("constraints_rhs", ADataset (list_to_map [("con0", over_dim_0 [0] ["10.0"])]));
     ("objective",
      ALinearExpression
        (list_to_map [("coeffs", objective_terms ["1.0"]);
                      ("vars", objective_terms ["0"])]));
     ("objective_value", AScalar (Labelled.PyFloat S754_nan));
     ("status", AScalar (Labelled.PyStr "initialized"))].

(** The same model before it has a status. *)
Definition no_status_model
  : gmap string (@attr_value (@Labelled.larray string) Labelled.pyscalar) :=
  <["status" := AScalar Labelled.PyNone]> shared_dim_model.

(** The same model with a constraint over a dimension without labels that
    has another size than the dimension of this name in the objective. *)
Definition unlabelled_model
  : gmap string (@attr_value (@Labelled.larray string) Labelled.pyscalar) :=
  <["constraints" :=
      ADataset (list_to_map
        [("con0", Labelled.LArray [("_term", Labelled.NoLabels 2)]
                    (list_to_map [([0%nat], "0"); ([1%nat], "1")]))])]>
    shared_dim_model.

(** The same model with a constraint over both labels of [dim_0]. *)
Definition aligned_model
  : gmap string (@attr_value (@Labelled.larray string) Labelled.pyscalar) :=
  <["constraints" := ADataset (list_to_map [("con0", over_dim_0 [0; 1] ["0"; "1"])])]>
    (<["constraints_lhs_coeffs" := ADataset ∅]>
       (<["constraints_lhs_vars" := ADataset ∅]>
          (<["constraints_sign" := ADataset ∅]>
             (<["constraints_rhs" := ADataset ∅]> shared_dim_model)))).

(** * Facts about the embedding *)

Example fmt_1 : Fmt.float_str f64_1 = "+1.000000".
Proof. vm_compute. reflexivity. Qed.

Example fmt_10 : Fmt.float_str f64_10 = "+10.000000".
Proof. vm_compute. reflexivity. Qed.

Example fmt_tie : Fmt.float_str f64_1_128 = "+0.007812".
Proof. vm_compute. reflexivity. Qed.

Example fmt_nan : Fmt.float_str S754_nan = "+0.000000".
Proof. vm_compute. reflexivity. Qed.

Example fmt_neg : Fmt.int_str (Some (-1)) = "-1".
Proof. vm_compute. reflexivity. Qed.

Example example_export_runs :
  fst (export example_model []) = inr tt /\
  contents (snd (export example_model [])) = example_text.
Proof. split; vm_compute; reflexivity. Qed.

Lemma mapM_add_obj {X} (g : X -> string) (o : X -> pyobj) (l : list X) :
  mapM (fun x => add_obj (g x) (o x)) l
  = if forallb (fun x => is_str (o x)) l
    then ret (map (fun x => g x +:+ str_of (o x)) l)
    else raise TypeError.
Proof.
  induction l as [|x l IH]; simpl; [reflexivity|].
  destruct (o x) as [s| |z]; simpl; try reflexivity.
  rewrite IH. destruct (forallb _ l); reflexivity.
Qed.

(** ** Elementwise operations on tables built from one list of cells *)

Section Elementwise.

Context {X : Type}.

Implicit Types (l : list X) (g h : X -> string) (b c : X -> bool).

Lemma mapM_ret {Y} (f : X -> Y) l :
    mapM (fun x => ret (f x)) l = ret (map f l).
  Proof. induction l as [|x l IH]; simpl; [reflexivity|]. rewrite IH. reflexivity. Qed.

Lemma mapM_ext {Y} (f f' : X -> result Y) l :
    (forall x, In x l -> f x = f' x) -> mapM f l = mapM f' l.
  Proof.
    induction l as [|x l IH]; simpl; intros H; [reflexivity|].
    rewrite (H x) by auto. rewrite IH by auto. reflexivity.
  Qed.

Lemma mapM_map {W Y} (k : X -> W) (f : W -> result Y) l :
    mapM f (map k l) = mapM (fun x => f (k x)) l.
  Proof. induction l as [|x l IH]; simpl; [reflexivity|]. rewrite IH. reflexivity. Qed.

Lemma zip_with_map_same {A B C} (f : A -> B -> C) (p : X -> A) (q : X -> B) l :
    zip_with f (map p l) (map q l) = map (fun x => f (p x) (q x)) l.
  Proof. induction l as [|x l IH]; simpl; [reflexivity|]. rewrite IH. reflexivity. Qed.

Lemma zip_map_same {A B} (p : X -> A) (q : X -> B) l :
    zip (map p l) (map q l) = map (fun x => (p x, q x)) l.
  Proof. apply zip_with_map_same. Qed.

Lemma add_tables_map g (o : X -> pyobj) l :
    add_tables (map g l) (map o l) = mapM (fun x => add_obj (g x) (o x)) l.
  Proof. induction l as [|x l IH]; simpl; [reflexivity|]. rewrite IH. reflexivity. Qed.

Lemma np_add_const_strs a h l :
    np_add (SConst a) (strs (map h l)) = ret (STable (map (fun x => a +:+ h x) l)).
  Proof.
    unfold strs. simpl. rewrite map_map, mapM_map. simpl.
    rewrite (mapM_ret (fun x => a +:+ h x)). reflexivity.
  Qed.

Lemma np_add_table_const g a l :
    np_add (STable (map g l)) (OConst a) = ret (STable (map (fun x => g x +:+ a) l)).
  Proof. simpl. rewrite map_map. reflexivity. Qed.

Lemma np_add_table_strs g h l :
    np_add (STable (map g l)) (strs (map h l))
    = ret (STable (map (fun x => g x +:+ h x) l)).
  Proof.
    unfold strs. simpl. rewrite map_map, add_tables_map. simpl.
    rewrite (mapM_ret (fun x => g x +:+ h x)). reflexivity.
  Qed.

Lemma np_add_const_const a a' :
    np_add (SConst a) (OConst a') = ret (SConst (a +:+ a')).
  Proof. reflexivity. Qed.

Lemma np_add_table_objs g (o : X -> pyobj) l :
    np_add (STable (map g l)) (OTable (map o l))
    = if forallb (fun x => is_str (o x)) l
      then ret (STable (map (fun x => g x +:+ str_of (o x)) l))
      else raise TypeError.
  Proof.
    cbn [np_add]. rewrite add_tables_map, mapM_add_obj.
    destruct (forallb _ l); reflexivity.
  Qed.

Lemma where_map g b other l :
    where_ (STable (map g l)) (map b l) other
    = ret (map (fun x => if b x then g x else other) l).
  Proof. simpl. rewrite zip_with_map_same. reflexivity. Qed.

End Elementwise.

Lemma append_empty_l (s : string) : "" +:+ s = s.
Proof. reflexivity. Qed.

Lemma append_assoc (a b c : string) : (a +:+ b) +:+ c = a +:+ b +:+ c.
Proof.
  induction a as [|x a IH]; [reflexivity|].
  change (String x ((a +:+ b) +:+ c) = String x (a +:+ b +:+ c)).
  f_equal. exact IH.
Qed.

(** The join of a term table, cell by cell. *)
Lemma join_terms (ts : list term) :
  join_str_arrays
    [strs (to_float_str (coeffs ts)); OConst " x"; strs (to_int_str (vars ts)); OConst nl]
  = ret (STable (map term_line ts)).
Proof.
  unfold join_str_arrays, to_float_str, to_int_str, coeffs, vars.
  rewrite !map_map. cbn [reduce_add].
  rewrite np_add_const_strs. cbn [bind ret].
  rewrite np_add_table_const. cbn [bind ret].
  rewrite np_add_table_strs. cbn [bind ret].
  rewrite np_add_table_const. cbn [bind ret].
  f_equal. f_equal. apply map_ext. intros t. unfold term_line.
  rewrite !append_assoc. reflexivity.
Qed.

Lemma mask_terms (ts : list term) :
  zip_with andb (map Fmt.notnull (coeffs ts)) (map ne_sentinel (vars ts))
  = map term_valid ts.
Proof. unfold coeffs, vars. rewrite !map_map, zip_with_map_same. reflexivity. Qed.

Lemma str_array_to_file_app (array : list string) (f : file) :
  str_array_to_file array f = (ret tt, f ++ array).
Proof.
  revert f. induction array as [|x array IH]; intros f; simpl.
  - unfold io_ret. rewrite app_nil_r. reflexivity.
  - unfold io_bind, write. rewrite IH, <- app_assoc. reflexivity.
Qed.

(** [objective_to_file] writes the header and then one string per cell. *)
Lemma objective_to_file_run (m : Model) (f : file) :
  objective_to_file m f
  = (ret tt, f ++ objective_header :: map masked_term (objective m)).
Proof.
  unfold objective_to_file, io_bind, io_lift, write.
  rewrite join_terms, mask_terms. cbn [ret].
  rewrite (where_map term_line term_valid). cbn [ret].
  rewrite str_array_to_file_app, <- app_assoc. reflexivity.
Qed.

(** ** The constraints section *)

Lemma ds_cells_map {A B} (f : A -> B) (ds : Dataset A) :
  ds_cells (ds_map f ds) = map f (ds_cells ds).
Proof.
  unfold ds_cells, ds_map. induction ds as [|[k a] ds IH]; simpl; [reflexivity|].
  rewrite IH, map_app. reflexivity.
Qed.

Lemma existsb_id_map {X} (b : X -> bool) (l : list X) :
  existsb id (map b l) = existsb b l.
Proof. induction l as [|x l IH]; simpl; [reflexivity|]. rewrite IH. reflexivity. Qed.

Lemma lhs_row_terms (ts : list term) :
  lhs_row (coeffs ts) (vars ts)
  = ret (existsb term_valid ts, np_sum (map masked_term ts)).
Proof.
  unfold lhs_row. rewrite join_terms, mask_terms. cbn [bind ret].
  rewrite (where_map term_line term_valid). cbn [bind ret].
  rewrite existsb_id_map. reflexivity.
Qed.

Lemma constraints_to_file_run (m : Model) (f : file) :
  constraints_to_file m f
  = if joinable m
    then (ret tt, f ++ constraints_header :: map masked_block (con_rows m))
    else (raise TypeError, f ++ [constraints_header]).
Proof.
  unfold constraints_to_file, constraints, constraints_lhs_coeffs,
    constraints_lhs_vars, constraints_sign, constraints_rhs, joinable.
  rewrite !ds_cells_map. fold (con_rows m).
  unfold io_bind at 1. unfold write at 1.
  rewrite zip_map_same, mapM_map. cbn [fst snd].
  rewrite (mapM_ext _ (fun r => ret (existsb term_valid (con_terms r), lhs_text r)))
    by (intros r _; apply lhs_row_terms).
  rewrite mapM_ret.
  unfold io_bind at 1, io_lift at 1. cbn [ret].
  rewrite !map_map. cbn [fst snd].
  rewrite !zip_with_map_same.
  unfold join_str_arrays, to_int_str, to_float_str. rewrite !map_map.
  cbn [reduce_add].
  rewrite np_add_const_const. cbn [bind ret].
  rewrite np_add_const_strs. cbn [bind ret].
  rewrite np_add_table_const. cbn [bind ret].
  rewrite np_add_table_objs.
  destruct (forallb (fun r => is_str (lhs_text r)) (con_rows m)); cbn [andb bind ret raise];
    [|unfold io_bind, io_lift; reflexivity].
  rewrite np_add_table_objs.
  destruct (forallb (fun r => is_str (sign_obj (con_sign r))) (con_rows m));
    cbn [andb bind ret raise]; [|unfold io_bind, io_lift; reflexivity].
  rewrite np_add_table_const. cbn [bind ret].
  rewrite np_add_table_strs. cbn [bind ret].
  rewrite np_add_table_const. cbn [bind ret].
  unfold io_bind at 1, io_lift at 1. cbn [ret].
  rewrite (where_map _ (fun r => existsb term_valid (con_terms r) && ne_sentinel (con_label r)
                                 && notnull_obj (con_sign r) && Fmt.notnull (con_rhs r))).
  unfold io_bind, io_lift. cbn [ret].
  rewrite str_array_to_file_app, <- app_assoc. cbn [app].
  f_equal. f_equal. f_equal. apply map_ext. intros r.
  unfold masked_block, row_valid, block.
  destruct (_ && _); [|reflexivity].
  rewrite !append_assoc. reflexivity.
Qed.

(** ** The bounds section *)

Lemma ds_lookup_map {A B} (f : A -> B) (ds : Dataset A) (k : string) :
  ds_lookup (ds_map f ds) k = option_map (map f) (ds_lookup ds k).
Proof.
  induction ds as [|[k' a] ds IH]; simpl; [reflexivity|].
  destruct (String.eqb k k'); [reflexivity|exact IH].
Qed.

Lemma dict_set_map {A B} (f : A -> B) (d : Dataset A) (k : string) (a : list A) :
  dict_set (ds_map f d) k (map f a) = ds_map f (dict_set d k a).
Proof.
  induction d as [|[k' a'] d IH]; simpl; [reflexivity|].
  destruct (String.eqb k k'); simpl; [reflexivity|]. rewrite IH. reflexivity.
Qed.

Lemma ds_getitem_from_map {A B} (f : A -> B) (ds : Dataset A)
    (names : list string) (acc : Dataset A) :
  ds_getitem_from (ds_map f ds) names (ds_map f acc)
  = let* d := ds_getitem_from ds names acc in ret (ds_map f d).
Proof.
  revert acc. induction names as [|n names IH]; intros acc; simpl; [reflexivity|].
  rewrite ds_lookup_map. destruct (ds_lookup ds n) as [a|]; simpl; [|reflexivity].
  rewrite dict_set_map. apply IH.
Qed.

Lemma ds_getitem_map {A B} (f : A -> B) (ds : Dataset A) (names : list string) :
  ds_getitem (ds_map f ds) names
  = let* d := ds_getitem ds names in ret (ds_map f d).
Proof. apply (ds_getitem_from_map f ds names []). Qed.

Lemma bounds_to_file_run (m : Model) (f : file) :
  bounds_to_file m f
  = match non_binary_rows m with
    | inl e => (inl e, f ++ [bounds_header])
    | inr rows => (ret tt, f ++ bounds_header :: map masked_bound rows)
    end.
Proof.
  unfold bounds_to_file, non_binary_rows, variables, variables_lower_bound,
    variables_upper_bound.
  unfold io_bind at 1. unfold write at 1.
  rewrite !ds_getitem_map.
  destruct (ds_getitem (variable_rows m) (_non_binary_variables m)) as [e|d];
    cbn [bind ret]; [unfold io_bind, io_lift; reflexivity|].
  unfold io_bind at 1, io_lift at 1. cbn [ret].
  unfold io_bind at 1, io_lift at 1. cbn [ret].
  unfold io_bind at 1, io_lift at 1. cbn [ret].
  rewrite !ds_cells_map.
  unfold join_str_arrays, to_int_str, to_float_str. rewrite !map_map.
  rewrite !zip_with_map_same.
  cbn [reduce_add].
  rewrite np_add_const_strs. cbn [bind ret].
  rewrite np_add_table_const. cbn [bind ret].
  rewrite np_add_table_strs. cbn [bind ret].
  rewrite np_add_table_const. cbn [bind ret].
  rewrite np_add_table_strs. cbn [bind ret].
  rewrite np_add_table_const. cbn [bind ret].
  unfold io_bind at 1, io_lift at 1. cbn [ret].
  rewrite (where_map _ bound_valid).
  unfold io_bind, io_lift. cbn [ret].
  rewrite str_array_to_file_app, <- app_assoc. cbn [app].
  f_equal. f_equal. f_equal. apply map_ext. intros r.
  unfold masked_bound, bound_line. destruct (bound_valid r); [|reflexivity].
  rewrite !append_assoc. reflexivity.
Qed.

(** ** The binaries section and the whole export *)

Lemma binaries_to_file_run (m : Model) (f : file) :
  binaries_to_file m f
  = (ret tt, f ++ binaries_header
             :: map masked_binary (ds_cells (binaries m)) ++ [terminator]).
Proof.
  unfold binaries_to_file.
  unfold io_bind at 1. unfold write at 1.
  unfold join_str_arrays, to_int_str. cbn [reduce_add].
  rewrite np_add_const_const. cbn [bind ret].
  rewrite np_add_const_strs. cbn [bind ret].
  rewrite np_add_table_const. cbn [bind ret].
  unfold io_bind at 1, io_lift at 1. cbn [ret].
  rewrite (where_map _ ne_sentinel).
  unfold io_bind at 1, io_lift at 1. cbn [ret].
  unfold io_bind. rewrite str_array_to_file_app. unfold write.
  rewrite <- !app_assoc. cbn [app ret]. reflexivity.
Qed.

Lemma export_run (m : Model) (f : file) :
  export m f
  = if joinable m then
      match non_binary_rows m with
      | inr rows =>
          (ret tt, f ++ objective_writes m ++ constraints_writes m
                     ++ bounds_writes rows ++ binaries_writes m)
      | inl e =>
          (inl e, f ++ objective_writes m ++ constraints_writes m ++ [bounds_header])
      end
    else (raise TypeError, f ++ objective_writes m ++ [constraints_header]).
Proof.
  unfold export.
  unfold io_bind at 1. rewrite objective_to_file_run. cbn [ret].
  unfold io_bind at 1. rewrite constraints_to_file_run.
  destruct (joinable m); cbn [ret raise].
  - unfold io_bind. rewrite bounds_to_file_run.
    destruct (non_binary_rows m) as [e|rows]; cbn [ret].
    + rewrite <- !app_assoc. reflexivity.
    + rewrite binaries_to_file_run, <- !app_assoc. reflexivity.
  - rewrite <- !app_assoc. reflexivity.
Qed.

Lemma to_file_insert (m : Model) (fn : string) (fs : gmap string string) :
  to_file m fn fs = (fst (export m []), <[fn := contents (snd (export m []))]> fs).
Proof.
  unfold to_file. destruct (export m []) as [r f]. cbn [fst snd]. f_equal.
  case_bool_decide as H; [|reflexivity].
  apply insert_delete_eq.
Qed.

(** C2: the model with objective [1 x0] and the single constraint
    [2 x0 + 3 x1 <= 10] (variable labels 0 and 1, constraint label 0), no
    declared bounds and no binaries, is exported without an exception and the
    file then holds exactly the text of the specification's example, whatever
    the path and whatever the file held before. *)
Theorem to_file_example (fn : string) (fs : gmap string string) :
  to_file example_model fn fs = (inr tt, <[fn := example_text]> fs).
Proof.
  rewrite to_file_insert.
  assert (export example_model [] =
          (inr tt, snd (export example_model []))) as Hrun
    by (vm_compute; reflexivity).
  rewrite Hrun. cbn [fst snd].
  replace (contents (snd (export example_model []))) with example_text
    by (vm_compute; reflexivity).
  reflexivity.
Qed.

(** C6: for every model the export writes the objective header and cells,
    then the constraints header and cells, then the bounds header and cells,
    then the binaries header and cells, then the terminator, in this order;
    every writer only appends to what the file already holds, so the strings
    of one section are all in the file before the next header.  A run that
    raises stops after the header of the section that raised and has written
    the sections before it in the same order.  The file under the path holds
    these strings one after the other and nothing else. *)
Theorem export_sections_in_order (m : Model) :
  (forall f, exists w, snd (objective_to_file m f) = f ++ objective_header :: w)
  /\ (forall f, exists w, snd (constraints_to_file m f) = f ++ constraints_header :: w)
  /\ (forall f, exists w, snd (bounds_to_file m f) = f ++ bounds_header :: w)
  /\ (forall f, exists w,
        snd (binaries_to_file m f) = f ++ binaries_header :: w ++ [terminator])
  /\ (export m []
     = if joinable m then
         match non_binary_rows m with
         | inr rows =>
             (inr tt,
              (objective_header :: map masked_term (objective m))
              ++ (constraints_header :: map masked_block (con_rows m))
              ++ (bounds_header :: map masked_bound rows)
              ++ (binaries_header :: map masked_binary (ds_cells (binaries m)))
              ++ [terminator])
         | inl e =>
             (inl e,
              (objective_header :: map masked_term (objective m))
              ++ (constraints_header :: map masked_block (con_rows m))
              ++ [bounds_header])
         end
       else
         (inl TypeError,
          (objective_header :: map masked_term (objective m)) ++ [constraints_header]))
  /\ (forall fn fs,
        to_file m fn fs
        = (fst (export m []), <[fn := contents (snd (export m []))]> fs)).
Proof.
  split; [|split; [|split; [|split; [|split]]]].
  - intros f. rewrite objective_to_file_run. eauto.
  - intros f. rewrite constraints_to_file_run.
    destruct (joinable m); cbn [snd]; [eauto|]. exists []. reflexivity.
  - intros f. rewrite bounds_to_file_run.
    destruct (non_binary_rows m); cbn [snd]; [|eauto]. exists []. reflexivity.
  - intros f. rewrite binaries_to_file_run. cbn [snd]. eauto.
  - rewrite export_run. cbn [app].
    destruct (joinable m); [|reflexivity].
    destruct (non_binary_rows m); [reflexivity|].
    unfold binaries_writes, bounds_writes, constraints_writes, objective_writes.
    cbn [ret app]. reflexivity.
  - intros fn fs. apply to_file_insert.
Qed.

(** ** Masked cells and the text of the file *)

Lemma append_empty_r (s : string) : s +:+ "" = s.
Proof.
  induction s as [|x s IH]; [reflexivity|].
  change (String x (s +:+ "") = String x s). f_equal. exact IH.
Qed.

Lemma concat_cons (x : string) (xs : list string) :
  String.concat "" (x :: xs) = x +:+ String.concat "" xs.
Proof. destruct xs; simpl; [rewrite append_empty_r|]; reflexivity. Qed.

Lemma concat_app (xs ys : list string) :
  String.concat "" (xs ++ ys) = String.concat "" xs +:+ String.concat "" ys.
Proof.
  induction xs as [|x xs IH]; [reflexivity|].
  cbn [app]. rewrite !concat_cons, IH, append_assoc. reflexivity.
Qed.

(** An empty string written to the file leaves no trace in its text: the
    masked cells are simply missing, the others follow each other directly. *)
Lemma concat_masked {X} (valid : X -> bool) (line : X -> string) (l : list X) :
  String.concat "" (map (fun x => if valid x then line x else "") l)
  = String.concat "" (map line (List.filter valid l)).
Proof.
  induction l as [|x l IH]; [reflexivity|].
  cbn [map List.filter]. rewrite concat_cons, IH.
  destruct (valid x); cbn [map]; [rewrite concat_cons|]; reflexivity.
Qed.

Lemma block_nonempty (r : con_row) : block r <> "".
Proof. discriminate. Qed.

Lemma masked_block_empty_iff (r : con_row) :
  masked_block r = "" <-> row_valid r = false.
Proof.
  unfold masked_block. destruct (row_valid r); split; try reflexivity; try discriminate.
Qed.

Lemma lhs_text_str (r : con_row) :
  str_of (lhs_text r)
  = String.concat "" (map term_line (List.filter term_valid (con_terms r))).
Proof.
  unfold lhs_text, np_sum. rewrite <- (concat_masked term_valid term_line).
  fold masked_term. destruct (map masked_term (con_terms r)); reflexivity.
Qed.

Lemma StronglySorted_map_filter {X} (key : X -> Z) (keep : X -> bool) (l : list X) :
  StronglySorted Z.lt (map key l) ->
  StronglySorted Z.lt (map key (List.filter keep l)).
Proof.
  induction l as [|x l IH]; intros H; [constructor|].
  cbn [map] in H. apply StronglySorted_inv in H as [Hl Hx].
  cbn [List.filter]. destruct (keep x); [|auto].
  cbn [map]. constructor; [auto|].
  rewrite List.Forall_forall in *. intros k Hk. apply Hx.
  rewrite in_map_iff in *. destruct Hk as (y & <- & Hy).
  apply List.filter_In in Hy as [Hy _]. eauto.
Qed.

(** C3, at a model with a null sign: the second row is invalid (its sign is
    null), so it should contribute the empty string and the first row its
    block; instead the join adds the null sign to a string before the mask is
    applied, the export raises [TypeError], and the file holds nothing after
    the header of the constraints section. *)
Theorem null_sign_row_raises :
  map row_valid (con_rows null_sign_model) = [true; false]
  /\ export null_sign_model []
     = (inl TypeError,
        [objective_header; "+1.000000 x0" +:+ nl; constraints_header]).
Proof. split; vm_compute; reflexivity. Qed.

(** ** The constraints section on tables in memory *)

(** [constraints_to_file] is [constraints_to_file_on] for tables in memory. *)
Lemma constraints_to_file_in_memory (m : Model) (f : file) :
  constraints_to_file_on InMemory m f = constraints_to_file m f.
Proof.
  unfold constraints_to_file_on, constraints_to_file, constraints_str,
    str_array_to_file_on, io_bind, io_lift, write.
  destruct (mapM _ _) as [e|lhs]; cbn [bind]; [reflexivity|].
  destruct (join_str_arrays _) as [e|joined]; cbn [bind]; [reflexivity|].
  destruct (where_ _ _ _) as [e|s]; reflexivity.
Qed.

(** C7, counterexample: a table in memory that stores the row labelled 1
    before the row labelled 0 is exported with the block [c1] before the
    block [c0]. *)
Lemma descending_model_not_ascending :
  fst (constraints_to_file_on InMemory descending_model []) = inr tt
  /\ contents (snd (constraints_to_file_on InMemory descending_model []))
     = nl +:+ nl +:+ "s.t." +:+ nl +:+ nl
       +:+ "c1: " +:+ nl +:+ "+2.000000 x0" +:+ nl +:+ "<=" +:+ nl
       +:+ "+10.000000" +:+ nl +:+ nl
       +:+ "c0: " +:+ nl +:+ "+3.000000 x0" +:+ nl +:+ ">=" +:+ nl
       +:+ "+1.000000" +:+ nl +:+ nl
  /\ ~ blocks_ascending descending_model.
Proof.
  split; [vm_compute; reflexivity|]. split; [vm_compute; reflexivity|].
  unfold blocks_ascending. intros H.
  replace (map label_id (emitted_rows descending_model)) with [1; 0] in H
    by (vm_compute; reflexivity).
  apply StronglySorted_inv in H as [_ H].
  apply Forall_inv in H. lia.
Qed.

(** C7, as the code has it: for constraint tables that are held in memory,
    when the join of the constraints section succeeds, the strings written
    after the header are those of the rows in the order of the table; a row
    that is not valid leaves nothing in the text; the term lines of a block
    are those of the valid cells of the row in the order of the term axis,
    with nothing between them; and the labels of the blocks ascend whenever
    the labels of the table do.  (For chunked tables [io.py] leaves the order
    of the writes to the scheduler.) *)
Theorem constraint_blocks_in_table_order (m : Model) :
  joinable m = true ->
  constraints_to_file_on InMemory m []
  = (inr tt, constraints_header :: map masked_block (con_rows m))
  /\ contents (snd (constraints_to_file_on InMemory m []))
     = constraints_header +:+ String.concat "" (map block (emitted_rows m))
  /\ (forall r,
        block r
        = "c" +:+ Fmt.int_str (con_label r) +:+ ": " +:+ nl
          +:+ String.concat "" (map term_line (List.filter term_valid (con_terms r)))
          +:+ str_of (sign_obj (con_sign r)) +:+ nl
          +:+ Fmt.float_str (con_rhs r) +:+ nl +:+ nl)
  /\ (StronglySorted Z.lt (map label_id (con_rows m)) -> blocks_ascending m).
Proof.
  intros Hj. rewrite constraints_to_file_in_memory, constraints_to_file_run, Hj.
  cbn [snd app].
  split; [reflexivity|]. split; [|split].
  - unfold contents, emitted_rows. rewrite concat_cons. f_equal.
    apply (concat_masked row_valid block).
  - intros r. unfold block. rewrite lhs_text_str. reflexivity.
  - apply StronglySorted_map_filter.
Qed.

Lemma constraint_blocks_in_table_order_witness :
  contents (snd (constraints_to_file_on InMemory ragged_model []))
  = constraints_header
    +:+ ("c0: " +:+ nl +:+ "+2.000000 x0" +:+ nl +:+ "+3.000000 x1" +:+ nl
         +:+ "<=" +:+ nl +:+ "+10.000000" +:+ nl +:+ nl)
    +:+ ("c1: " +:+ nl +:+ "+1.000000 x1" +:+ nl
         +:+ ">=" +:+ nl +:+ "+1.000000" +:+ nl +:+ nl)
  /\ blocks_ascending ragged_model.
Proof.
  destruct (constraint_blocks_in_table_order ragged_model eq_refl)
    as (_ & Htext & _ & Hsorted).
  split.
  - rewrite Htext. reflexivity.
  - apply Hsorted. repeat constructor.
Defined.

(** On a chunked table the scheduler decides: one that runs the last chunk
    first writes the blocks of [ragged_model] in descending order. *)
Example chunked_blocks_follow_scheduler :
  contents (snd (constraints_to_file_on (Chunked last_chunk_first) ragged_model []))
  = constraints_header
    +:+ ("c1: " +:+ nl +:+ "+1.000000 x1" +:+ nl
         +:+ ">=" +:+ nl +:+ "+1.000000" +:+ nl +:+ nl)
    +:+ ("c0: " +:+ nl +:+ "+2.000000 x0" +:+ nl +:+ "+3.000000 x1" +:+ nl
         +:+ "<=" +:+ nl +:+ "+10.000000" +:+ nl +:+ nl).
Proof. vm_compute. reflexivity. Qed.

(** ** Single cells in the file *)

Lemma lookup_map {A B} (f : A -> B) (l : list A) (i : nat) :
  map f l !! i = option_map f (l !! i).
Proof.
  revert i. induction l as [|x l IH]; intros [|i]; simpl; try reflexivity. apply IH.
Qed.

Lemma ne_sentinel_true (l : option Z) : ne_sentinel l = true <-> l <> Some (-1).
Proof.
  destruct l as [z|]; simpl; [|split; [discriminate|reflexivity]].
  destruct (Z.eqb_spec z (-1)) as [->|Hne]; simpl; split; congruence.
Qed.

Lemma notnull_true (f : spec_float) : Fmt.notnull f = true <-> f <> S754_nan.
Proof. destruct f; simpl; split; congruence. Qed.

(** ** Cells in the file *)

Lemma objective_line_written (m : Model) (t : term) :
  In t (objective m) -> In (masked_term t) (snd (objective_to_file m [])).
Proof.
  intros H. rewrite objective_to_file_run. cbn [snd app]. right.
  apply in_map. exact H.
Qed.

Lemma binary_line_written (m : Model) (l : option Z) :
  In l (ds_cells (binaries m)) -> In (masked_binary l) (snd (binaries_to_file m [])).
Proof.
  intros H. rewrite binaries_to_file_run. cbn [snd app]. right.
  apply in_or_app. left. apply in_map. exact H.
Qed.

(** The block of a valid row is written, and it holds the lines of the cells
    of the row in the order of the term axis. *)
Lemma block_written (m : Model) (r : con_row) (ts1 ts2 : list term) (t : term) :
  joinable m = true ->
  In r (con_rows m) ->
  con_terms r = ts1 ++ t :: ts2 ->
  term_valid t = true ->
  con_label r <> Some (-1) ->
  con_sign r <> None ->
  con_rhs r <> S754_nan ->
  In (block r) (snd (constraints_to_file m []))
  /\ block r
     = "c" +:+ Fmt.int_str (con_label r) +:+ ": " +:+ nl
       +:+ String.concat "" (map masked_term ts1)
       +:+ term_line t
       +:+ String.concat "" (map masked_term ts2)
       +:+ str_of (sign_obj (con_sign r)) +:+ nl
       +:+ Fmt.float_str (con_rhs r) +:+ nl +:+ nl.
Proof.
  intros Hj Hr Hts Hvalid Hlabel Hsign Hrhs. split.
  - rewrite constraints_to_file_run, Hj. cbn [snd app]. right.
    assert (row_valid r = true) as Hrow.
    { unfold row_valid. rewrite !andb_true_iff. repeat split.
      - apply existsb_exists. exists t. split; [|exact Hvalid].
        rewrite Hts. apply in_elt.
      - apply ne_sentinel_true, Hlabel.
      - destruct (con_sign r); [reflexivity|contradiction].
      - apply notnull_true, Hrhs. }
    replace (block r) with (masked_block r) by (unfold masked_block; rewrite Hrow; reflexivity).
    apply in_map. exact Hr.
  - unfold block, lhs_text. rewrite Hts, map_app. cbn [map].
    assert (np_sum (map masked_term ts1 ++ masked_term t :: map masked_term ts2)
            = PStr (String.concat "" (map masked_term ts1)
                    +:+ masked_term t
                    +:+ String.concat "" (map masked_term ts2))) as ->.
    { rewrite <- concat_cons, <- concat_app. unfold np_sum.
      destruct (map masked_term ts1); reflexivity. }
    cbn [str_of]. unfold masked_term at 2. rewrite Hvalid.
    rewrite !append_assoc. reflexivity.
Qed.

(** C8, counterexample: a coefficient that is the negative zero is exactly
    zero and not null, and its line is ["-0.000000 x7\n"], not
    ["+0.000000 x7\n"]; and a cell with a zero coefficient in a row that has
    no right-hand side is valid, yet nothing of it is written. *)
Lemma zero_cell_not_always_plus_zero :
  snd (objective_to_file zero_edge_model [])
  = [objective_header; "-0.000000 x7" +:+ nl]
  /\ forallb (fun r => forallb term_valid (con_terms r)) (con_rows zero_edge_model) = true
  /\ constraints_to_file zero_edge_model [] = (inr tt, [constraints_header; ""]).
Proof. repeat split; vm_compute; reflexivity. Qed.

(** C8, as the code has it: a term cell whose coefficient is a zero of
    either sign (so not null) and whose label is not the sentinel is valid,
    and the validity of a cell with a non-null coefficient depends on the
    label only.  Its line is the sign of the zero, ["0.000000 x<id>"] and a
    line feed.  In the objective the line is written.  In a constraint the
    line is part of the block of its row, after the lines of the valid cells
    before it and before those of the valid cells after it, and the block is
    written, when the join of the section succeeds and the row is valid:
    its label is not the sentinel and its sign and its right-hand side are
    not null. *)
Theorem zero_coefficient_emitted (t : term) (s : bool) :
  coeff t = S754_zero s ->
  var t <> Some (-1) ->
  term_valid t = true
  /\ term_line t = Fmt.sign_char s +:+ "0.000000 x" +:+ Fmt.int_str (var t) +:+ nl
  /\ (forall m : Model,
        In t (objective m) -> In (term_line t) (snd (objective_to_file m [])))
  /\ (forall (m : Model) (r : con_row) (ts1 ts2 : list term),
        joinable m = true ->
        In r (con_rows m) ->
        con_terms r = ts1 ++ t :: ts2 ->
        con_label r <> Some (-1) ->
        con_sign r <> None ->
        con_rhs r <> S754_nan ->
        In (block r) (snd (constraints_to_file m []))
        /\ block r
           = "c" +:+ Fmt.int_str (con_label r) +:+ ": " +:+ nl
             +:+ String.concat "" (map masked_term ts1)
             +:+ term_line t
             +:+ String.concat "" (map masked_term ts2)
             +:+ str_of (sign_obj (con_sign r)) +:+ nl
             +:+ Fmt.float_str (con_rhs r) +:+ nl +:+ nl)
  /\ (forall c c' v,
        Fmt.notnull c = true -> Fmt.notnull c' = true ->
        term_valid (Term c v) = term_valid (Term c' v)).
Proof.
  intros Hc Hv.
  assert (term_valid t = true) as Hvalid.
  { unfold term_valid. rewrite Hc. apply ne_sentinel_true in Hv. rewrite Hv. reflexivity. }
  split; [exact Hvalid|]. split; [|split; [|split]].
  - unfold term_line. rewrite Hc. destruct s; reflexivity.
  - intros m Hin. apply objective_line_written in Hin.
    unfold masked_term in Hin. rewrite Hvalid in Hin. exact Hin.
  - intros m r ts1 ts2 Hj Hr Hts Hl Hs Hrhs.
    exact (block_written m r ts1 ts2 t Hj Hr Hts Hvalid Hl Hs Hrhs).
  - intros c c' v H H'. unfold term_valid. cbn [coeff var]. rewrite H, H'. reflexivity.
Qed.

Lemma zero_coefficient_emitted_witness :
  In ("+0.000000 x7" +:+ nl) (snd (objective_to_file zero_row_model []))
  /\ In ("c0: " +:+ nl +:+ "+2.000000 x0" +:+ nl +:+ "+0.000000 x7" +:+ nl
         +:+ "<=" +:+ nl +:+ "+10.000000" +:+ nl +:+ nl)
        (snd (constraints_to_file zero_row_model [])).
Proof.
  destruct (zero_coefficient_emitted (Term (S754_zero false) (Some 7)) false)
    as (_ & _ & Hobj & Hcon & _); [reflexivity|discriminate|].
  split.
  - apply (Hobj zero_row_model). right. left. reflexivity.
  - apply (Hcon zero_row_model
             (ConRow (Some 0) [Term f64_2 (Some 0); Term (S754_zero false) (Some 7)]
                (Some "<=") f64_10)
             [Term f64_2 (Some 0)] []); try reflexivity; try discriminate.
    left. reflexivity.
Defined.

(** C9, counterexample: a constraint cell with a non-null coefficient and a
    null label passes the mask of the cells, but its row has no right-hand
    side, and nothing of the cell is written. *)
Lemma null_label_in_masked_row :
  forallb (fun r => forallb term_valid (con_terms r)) (con_rows null_label_edge_model)
  = true
  /\ constraints_to_file null_label_edge_model [] = (inr tt, [constraints_header; ""]).
Proof. split; vm_compute; reflexivity. Qed.

(** C9, as the code has it: a null label is not the sentinel.  An
    objective cell with a non-null coefficient and a null label is written
    as a line that names the variable [x0].  A constraint cell of this kind
    gives such a line in the block of its row, at its place among the lines
    of the valid cells, and the block is written, when the join of the
    section succeeds and the row is valid.  A null entry of the binaries is
    written as the line ["x0\n"]. *)
Theorem null_label_emitted (m : Model) :
  ne_sentinel None = true
  /\ (forall t : term,
        In t (objective m) ->
        Fmt.notnull (coeff t) = true ->
        var t = None ->
        In (Fmt.float_str (coeff t) +:+ " x0" +:+ nl) (snd (objective_to_file m [])))
  /\ (forall (r : con_row) (t : term) (ts1 ts2 : list term),
        joinable m = true ->
        In r (con_rows m) ->
        con_terms r = ts1 ++ t :: ts2 ->
        Fmt.notnull (coeff t) = true ->
        var t = None ->
        con_label r <> Some (-1) ->
        con_sign r <> None ->
        con_rhs r <> S754_nan ->
        In (block r) (snd (constraints_to_file m []))
        /\ block r
           = "c" +:+ Fmt.int_str (con_label r) +:+ ": " +:+ nl
             +:+ String.concat "" (map masked_term ts1)
             +:+ (Fmt.float_str (coeff t) +:+ " x0" +:+ nl)
             +:+ String.concat "" (map masked_term ts2)
             +:+ str_of (sign_obj (con_sign r)) +:+ nl
             +:+ Fmt.float_str (con_rhs r) +:+ nl +:+ nl)
  /\ (In None (ds_cells (binaries m)) ->
      In ("x0" +:+ nl) (snd (binaries_to_file m []))).
Proof.
  assert (forall t, Fmt.notnull (coeff t) = true -> var t = None ->
                    term_valid t = true
                    /\ term_line t = Fmt.float_str (coeff t) +:+ " x0" +:+ nl) as Hcell.
  { intros t Hc Hv. split.
    - unfold term_valid. rewrite Hc, Hv. reflexivity.
    - unfold term_line. rewrite Hv. reflexivity. }
  split; [reflexivity|]. split; [|split].
  - intros t Hin Hc Hv. destruct (Hcell t Hc Hv) as [Hvalid Hline].
    apply objective_line_written in Hin.
    unfold masked_term in Hin. rewrite Hvalid, Hline in Hin. exact Hin.
  - intros r t ts1 ts2 Hj Hr Hts Hc Hv Hl Hs Hrhs.
    destruct (Hcell t Hc Hv) as [Hvalid Hline]. rewrite <- Hline.
    exact (block_written m r ts1 ts2 t Hj Hr Hts Hvalid Hl Hs Hrhs).
  - intros Hin. apply binary_line_written in Hin. exact Hin.
Qed.

Lemma null_label_emitted_witness :
  In ("+2.000000 x0" +:+ nl) (snd (objective_to_file null_label_row_model []))
  /\ In ("c0: " +:+ nl +:+ "+3.000000 x0" +:+ nl +:+ "+1.000000 x1" +:+ nl
         +:+ ">=" +:+ nl +:+ "+1.000000" +:+ nl +:+ nl)
        (snd (constraints_to_file null_label_row_model []))
  /\ In ("x0" +:+ nl) (snd (binaries_to_file null_label_row_model [])).
Proof.
  destruct (null_label_emitted null_label_row_model) as (_ & Hobj & Hcon & Hbin).
  split; [|split].
  - apply (Hobj (Term f64_2 None)); [left|..]; reflexivity.
  - apply (Hcon (ConRow (Some 0) [Term f64_3 None; Term f64_1 (Some 1)] (Some ">=") f64_1)
             (Term f64_3 None) [] [Term f64_1 (Some 1)]);
      try reflexivity; try discriminate.
    left. reflexivity.
  - apply Hbin. right. left. reflexivity.
Defined.

(** ** The lines of the bounds section *)








(** ** The shape of the formatted numbers *)

Lemma app_cons (c : ascii) (s t : string) : String c s +:+ t = String c (s +:+ t).
Proof. reflexivity. Qed.

Lemma all_digits_app (s t : string) :
  all_digits (s +:+ t) = all_digits s && all_digits t.
Proof.
  induction s as [|c s IH]; [reflexivity|].
  rewrite app_cons. cbn [all_digits]. rewrite IH, andb_assoc. reflexivity.
Qed.

Lemma length_app (s t : string) :
  String.length (s +:+ t) = (String.length s + String.length t)%nat.
Proof.
  induction s as [|c s IH]; [reflexivity|].
  rewrite app_cons. cbn [String.length]. rewrite IH. reflexivity.
Qed.

Lemma pretty_N_char_digit (x : N) : is_digit (pretty_N_char x) = true.
Proof. unfold pretty_N_char. repeat case_match; reflexivity. Qed.

Lemma pretty_N_char_nonzero (x : N) : x <> 0%N -> pretty_N_char x <> "0"%char.
Proof. unfold pretty_N_char. repeat case_match; congruence. Qed.

(** The digits that [pretty_N_go] puts in front of its accumulator. *)
Lemma pretty_N_go_digits (x : N) (s : string) :
  exists d,
    pretty_N_go x s = d +:+ s
    /\ all_digits d = true
    /\ ((0 < x)%N -> exists c d', d = String c d' /\ c <> "0"%char).
Proof.
  revert s. induction (N.lt_wf_0 x) as [x _ IH]; intros s.
  destruct (N.eq_dec x 0%N) as [->|Hx].
  { exists "". rewrite pretty_N_go_0. repeat split. intros H; lia. }
  rewrite pretty_N_go_step by lia.
  set (c0 := pretty_N_char (x `mod` 10)%N).
  destruct (N.eq_dec (x `div` 10)%N 0%N) as [Hq|Hq].
  - rewrite Hq, pretty_N_go_0. exists (String c0 "").
    split; [reflexivity|]. split.
    + cbn [all_digits]. unfold c0. rewrite pretty_N_char_digit. reflexivity.
    + intros _. exists c0, "". split; [reflexivity|].
      unfold c0. apply pretty_N_char_nonzero.
      pose proof (N.div_mod x 10). lia.
  - destruct (IH (x `div` 10)%N) with (s := String c0 s) as (d & Hd & Hall & Hlead).
    { apply N.div_lt; [|reflexivity]. destruct x; [congruence|reflexivity]. }
    exists (d +:+ String c0 "").
    split; [|split].
    + rewrite Hd, append_assoc. reflexivity.
    + rewrite all_digits_app, Hall. cbn [all_digits]. unfold c0.
      rewrite pretty_N_char_digit. reflexivity.
    + intros _. destruct Hlead as (c & d' & -> & Hc); [apply N.neq_0_lt_0, Hq|].
      exists c, (d' +:+ String c0 ""). split; [reflexivity|exact Hc].
Qed.

Lemma plain_decimal_pretty (z : Z) : 0 <= z -> plain_decimal (pretty z) = true.
Proof.
  intros Hz. destruct z as [|p|p]; [reflexivity| |lia].
  change (pretty (Z.pos p)) with (pretty (N.pos p)).
  unfold pretty, pretty_N. case_decide as H0; [discriminate|].
  destruct (pretty_N_go_digits (N.pos p) "") as (d & Hd & Hall & Hlead).
  rewrite Hd, append_empty_r.
  destruct Hlead as (c & d' & -> & Hc); [lia|].
  unfold plain_decimal. rewrite Hall.
  destruct (Ascii.eqb_spec c "0"); [contradiction|reflexivity].
Qed.

Lemma pretty_digit (n : Z) :
  exists c, pretty (n mod 10) = String c "" /\ is_digit c = true.
Proof.
  pose proof (Z.mod_pos_bound n 10 ltac:(lia)) as Hb.
  assert (n mod 10 = 0 \/ n mod 10 = 1 \/ n mod 10 = 2 \/ n mod 10 = 3
          \/ n mod 10 = 4 \/ n mod 10 = 5 \/ n mod 10 = 6 \/ n mod 10 = 7
          \/ n mod 10 = 8 \/ n mod 10 = 9) as H by lia.
  repeat destruct H as [H|H]; rewrite H; eexists; split; reflexivity.
Qed.

Lemma fixed_digits_shape (w : nat) (n : Z) :
  String.length (Fmt.fixed_digits w n) = w
  /\ all_digits (Fmt.fixed_digits w n) = true.
Proof.
  revert n. induction w as [|w IH]; intros n; [split; reflexivity|].
  cbn [Fmt.fixed_digits]. destruct (IH (n / 10)) as [Hlen Hall].
  destruct (pretty_digit n) as (c & -> & Hc).
  rewrite length_app, all_digits_app, Hlen, Hall. cbn. rewrite Hc.
  split; [lia|reflexivity].
Qed.

Lemma is_digit_not_dot (c : ascii) : is_digit c = true -> Ascii.eqb c "." = false.
Proof.
  destruct c as [[] [] [] [] [] [] [] []]; try discriminate; reflexivity.
Qed.

Lemma split_dot_app (ip fp : string) :
  all_digits ip = true -> split_dot (ip +:+ "." +:+ fp) = Some (ip, fp).
Proof.
  induction ip as [|c ip IH]; [reflexivity|].
  cbn [all_digits]. intros [Hc Hall]%andb_true_iff.
  rewrite app_cons. cbn [split_dot]. rewrite (is_digit_not_dot c Hc), (IH Hall).
  reflexivity.
Qed.

Lemma round_micro_nonneg (m : positive) (e : Z) : 0 <= Fmt.round_micro m e.
Proof.
  unfold Fmt.round_micro. destruct (Z.leb_spec 0 e) as [He|He].
  - assert (0 < 2 ^ e) by (apply Z.pow_pos_nonneg; lia). nia.
  - assert (0 < 2 ^ (- e)) as Hden by (apply Z.pow_pos_nonneg; lia).
    assert (0 <= Z.pos m * 1000000 / 2 ^ (- e)) as Hq
      by (apply Z.div_pos; lia).
    cbv zeta. destruct (_ ?= _); [destruct (Z.even _)| |]; lia.
Qed.

Lemma plain_decimal_all_digits (s : string) :
  plain_decimal s = true -> all_digits s = true.
Proof.
  destruct s as [|c s]; [discriminate|]. unfold plain_decimal.
  intros [H _]%andb_true_iff. exact H.
Qed.

Lemma signed_fixed6_fixed6 (s : bool) (n : Z) :
  0 <= n -> signed_fixed6 (Fmt.sign_char s +:+ Fmt.fixed6 n) = true.
Proof.
  intros Hn. unfold Fmt.fixed6.
  assert (plain_decimal (pretty (n / 1000000)) = true) as Hip
    by (apply plain_decimal_pretty, Z.div_pos; lia).
  destruct (fixed_digits_shape 6 (n mod 1000000)) as [Hlen Hall].
  assert (signed_fixed6
            (String (if s then "-" else "+")%char
               (pretty (n / 1000000) +:+ "." +:+ Fmt.fixed_digits 6 (n mod 1000000)))
          = true) as H.
  { cbn [signed_fixed6].
    rewrite split_dot_app by (apply plain_decimal_all_digits, Hip).
    rewrite Hip, Hlen, Hall. destruct s; reflexivity. }
  destruct s; exact H.
Qed.

Lemma signed_fixed6_float_str (v : spec_float) :
  finite_or_null v = true -> signed_fixed6 (Fmt.float_str v) = true.
Proof.
  destruct v as [s|s| |s m e]; intros H; try discriminate.
  - apply (signed_fixed6_fixed6 s 0). lia.
  - reflexivity.
  - apply signed_fixed6_fixed6, round_micro_nonneg.
Qed.

Lemma plain_decimal_int_str (l : option Z) :
  label_nonneg l = true -> plain_decimal (Fmt.int_str l) = true.
Proof.
  destruct l as [z|]; cbn [label_nonneg]; intros H; [|reflexivity].
  apply plain_decimal_pretty. apply Z.leb_le in H. exact H.
Qed.

(** C5, counterexample: an infinite bound is a float that is not null; it
    is rendered as ["+inf"] or ["-inf"], which is not a sign followed by a
    fixed-point decimal with six fractional digits; and a negative label,
    such as the sentinel itself, is rendered with a minus sign. *)
Lemma infinity_not_fixed6 :
  to_float_str [S754_infinity false; S754_infinity true] = ["+inf"; "-inf"]
  /\ forallb signed_fixed6 (to_float_str [S754_infinity false; S754_infinity true])
     = false
  /\ to_int_str [Some (-1)] = ["-1"]
  /\ forallb plain_decimal (to_int_str [Some (-1)]) = false.
Proof. repeat split; vm_compute; reflexivity. Qed.

(** C5, as the code has it: every float that is finite or null is rendered
    (null as zero) as one sign character, ['+'] or ['-'], followed by a
    plain decimal integer part, a point and exactly six digits; every label
    that is null or not negative is rendered (null as zero) as a plain
    decimal integer without sign and without leading zeros. *)
Theorem finite_values_fixed6 (da : list spec_float) (labels : list (option Z)) :
  forallb finite_or_null da = true ->
  forallb label_nonneg labels = true ->
  forallb signed_fixed6 (to_float_str da) = true
  /\ forallb plain_decimal (to_int_str labels) = true.
Proof.
  intros Hda Hl. split.
  - unfold to_float_str. rewrite forallb_forall in *. intros s Hs.
    apply in_map_iff in Hs as (v & <- & Hv). apply signed_fixed6_float_str. auto.
  - unfold to_int_str. rewrite forallb_forall in *. intros s Hs.
    apply in_map_iff in Hs as (l & <- & Hl'). apply plain_decimal_int_str. auto.
Qed.

Lemma finite_values_fixed6_witness :
  forallb signed_fixed6
    (to_float_str [f64_10; S754_nan; S754_zero true; f64_1_128]) = true
  /\ forallb plain_decimal (to_int_str [Some 0; None; Some 12]) = true.
Proof.
  apply (finite_values_fixed6 [f64_10; S754_nan; S754_zero true; f64_1_128]
           [Some 0; None; Some 12]); reflexivity.
Defined.

(** ** The netCDF snapshot *)

Section SnapshotFacts.
Context {table scalar : Type} `{EqDecision table}.
Variable array_attrs : list string.
Variable obj_attrs : list string.
Variable Model_init : gmap string (@attr_value table scalar).

Abbreviation group := (gmap string table).
Abbreviation model := (gmap string (@attr_value table scalar)).

Global Instance prefixed_inj attr : Inj (=) (=) (prefixed attr).
Proof.
  intros v v' H. unfold prefixed in H.
  apply String.app_inj in H. apply String.app_inj in H. exact H.
Qed.

(** *** Names and prefixes *)

Lemma startswith_app (p f : string) : startswith p (p +:+ f) = true.
Proof.
  induction p as [|c p IH]; [reflexivity|].
  rewrite app_cons. cbn [startswith]. rewrite Ascii.eqb_refl, IH. reflexivity.
Qed.

Lemma slice_from_app (p f : string) : slice_from (String.length p) (p +:+ f) = f.
Proof. induction p as [|c p IH]; [reflexivity|]. rewrite app_cons. exact IH. Qed.

Lemma startswith_split (p k : string) :
  startswith p k = true -> k = p +:+ slice_from (String.length p) k.
Proof.
  revert k. induction p as [|c p IH]; intros k; [reflexivity|].
  destruct k as [|b k]; [discriminate|]. cbn [startswith].
  intros [Hc Hp]%andb_true_iff. apply Ascii.eqb_eq in Hc as ->.
  rewrite app_cons. cbn [String.length slice_from]. f_equal. apply IH, Hp.
Qed.

Lemma length_prefix (attr : string) :
  String.length (attr +:+ "-") = (String.length attr + 1)%nat.
Proof. apply length_app. Qed.

(** A category name without ['-'] ends at the first ['-'] of a key: the
    prefix of one category selects no key of another. *)
Lemma startswith_prefixed (a b f : string) :
  hyphen_free a = true -> hyphen_free b = true ->
  startswith (a +:+ "-") (prefixed b f) = true -> a = b.
Proof.
  unfold prefixed. revert b.
  induction a as [|c a IH]; intros [|c' b]; cbn [hyphen_free]; intros Ha Hb.
  - reflexivity.
  - rewrite app_cons. cbn [String.append startswith].
    apply andb_true_iff in Hb as [Hb _].
    intros [Hc _]%andb_true_iff. apply Ascii.eqb_eq in Hc as <-. discriminate.
  - rewrite app_cons. cbn [String.append startswith].
    apply andb_true_iff in Ha as [Ha _].
    intros [Hc _]%andb_true_iff. apply Ascii.eqb_eq in Hc as ->. discriminate.
  - rewrite !app_cons. cbn [startswith].
    apply andb_true_iff in Ha as [_ Ha]. apply andb_true_iff in Hb as [_ Hb].
    intros [Hc H]%andb_true_iff. apply Ascii.eqb_eq in Hc as ->.
    f_equal. apply (IH b Ha Hb H).
Qed.

Lemma prefixed_startswith (a f : string) : startswith (a +:+ "-") (prefixed a f) = true.
Proof. unfold prefixed. rewrite <- append_assoc. apply startswith_app. Qed.

Lemma prefixed_slice (a f : string) :
  slice_from (String.length a + 1) (prefixed a f) = f.
Proof.
  unfold prefixed. rewrite <- append_assoc, <- length_prefix. apply slice_from_app.
Qed.

Lemma startswith_is_prefixed (a k : string) :
  startswith (a +:+ "-") k = true ->
  k = prefixed a (slice_from (String.length a + 1) k).
Proof.
  intros H. apply startswith_split in H. rewrite length_prefix in H.
  unfold prefixed. rewrite <- append_assoc. exact H.
Qed.

(** [select_and_strip] reads the data variable [f] of category [attr] from
    the key [attr-f] of the container. *)
Lemma select_and_strip_lookup (all_ds : group) (attr f : string) :
  select_and_strip all_ds attr !! f = all_ds !! prefixed attr f.
Proof.
  unfold select_and_strip.
  set (g := fun kv : string * table =>
              if startswith (attr +:+ "-") (fst kv)
              then Some (slice_from (String.length attr + 1) (fst kv), snd kv)
              else None).
  assert (forall kv fv, g kv = Some fv -> kv = (prefixed attr (fst fv), snd fv)) as Hg.
  { intros [k v] [f' v']. unfold g. cbn [fst snd].
    destruct (startswith (attr +:+ "-") k) eqn:Hk; [|discriminate].
    intros [= <- <-]. f_equal. apply startswith_is_prefixed, Hk. }
  assert (NoDup (omap g (map_to_list all_ds)).*1) as Hnd.
  { pose proof (NoDup_fst_map_to_list all_ds) as H.
    induction (map_to_list all_ds) as [|kv l IH]; [constructor|].
    cbn [omap list_omap]. inversion H as [|? ? Hnotin Hl]; subst.
    destruct (g kv) as [fv|] eqn:Hkv; [|auto].
    cbn [fmap list_fmap]. constructor; [|auto].
    intros Hin. apply Hnotin.
    apply list_elem_of_fmap in Hin as (fv' & Hf & Hin).
    apply list_elem_of_omap in Hin as (kv' & Hin & Hkv').
    apply Hg in Hkv, Hkv'. subst kv kv'. cbn [fst]. rewrite Hf.
    apply list_elem_of_fmap. eexists. split; [|exact Hin]. cbn [fst]. reflexivity. }
  apply option_eq. intros v.
  rewrite <- (elem_of_list_to_map _ _ _ Hnd), list_elem_of_omap.
  split.
  - intros (kv & Hin & Hkv). apply Hg in Hkv. subst kv.
    apply elem_of_map_to_list in Hin. exact Hin.
  - intros H. exists (prefixed attr f, v). split.
    + apply elem_of_map_to_list. exact H.
    + unfold g. cbn [fst snd]. rewrite prefixed_startswith, prefixed_slice. reflexivity.
Qed.

(** *** Writing *)

Lemma prefixed_eq (a b f f' : string) :
  hyphen_free a = true -> hyphen_free b = true ->
  prefixed a f = prefixed b f' -> a = b /\ f = f'.
Proof.
  intros Ha Hb H.
  assert (a = b) as ->.
  { apply (startswith_prefixed a b f' Ha Hb). rewrite <- H. apply prefixed_startswith. }
  split; [reflexivity|]. apply (prefixed_inj b), H.
Qed.

Lemma merge_renamed (groups : list (string * group)) :
  Forall (fun ag => hyphen_free (fst ag) = true) groups ->
  (forall a d d', (a, d) ∈ groups -> (a, d') ∈ groups -> d = d') ->
  exists M,
    merge (map (fun ag => kmap (prefixed (fst ag)) (snd ag)) groups) = ret M
    /\ forall k y,
         M !! k = Some y
         <-> exists a d f, (a, d) ∈ groups /\ k = prefixed a f /\ d !! f = Some y.
Proof.
  induction groups as [|[a0 d0] rest IH]; intros Hfree Hfun.
  - exists ∅. split; [reflexivity|]. intros k y. rewrite lookup_empty. split; [discriminate|].
    intros (a & d & f & Hin & _). apply elem_of_nil in Hin. contradiction.
  - apply Forall_cons_1 in Hfree as [Ha0 Hfree]. cbn [fst] in Ha0.
    destruct IH as (r & Hr & Hlook); [exact Hfree| |].
    { intros a d d' H H'. apply (Hfun a); apply elem_of_cons; auto. }
    assert (forall a, (exists d, (a, d) ∈ rest) -> hyphen_free a = true) as Hfree'.
    { intros a [d Hd]. rewrite Forall_forall in Hfree. apply (Hfree (a, d) Hd). }
    assert (map_agree (kmap (prefixed a0) d0) r) as Hagree.
    { apply map_agree_spec. intros k x y Hx Hy.
      apply lookup_kmap_Some in Hx as (f & -> & Hx); [|apply _].
      apply Hlook in Hy as (a & d & f' & Hin & Heq & Hy).
      apply prefixed_eq in Heq as [<- <-]; [|exact Ha0|eauto].
      assert (d0 = d) as <-.
      { apply (Hfun a0); apply elem_of_cons; auto. }
      congruence. }
    cbn [map merge fst snd]. rewrite Hr. cbn [bind ret].
    destruct (decide _) as [_|Hn]; [|contradiction].
    eexists. split; [reflexivity|]. intros k y.
    rewrite lookup_union_Some_raw. split.
    + intros [Hk|[_ Hk]].
      * apply lookup_kmap_Some in Hk as (f & -> & Hk); [|apply _].
        exists a0, d0, f. split; [apply elem_of_cons; auto|auto].
      * apply Hlook in Hk as (a & d & f & Hin & Heq & Hk).
        exists a, d, f. split; [apply elem_of_cons; auto|auto].
    + intros (a & d & f & Hin & -> & Hy).
      apply elem_of_cons in Hin as [[= -> ->]|Hin].
      * left. rewrite (lookup_kmap (prefixed a0)). exact Hy.
      * assert (r !! prefixed a f = Some y) as Hr' by (apply Hlook; eauto 6).
        destruct (kmap (prefixed a0) d0 !! prefixed a f) as [x|] eqn:Hx; [|auto].
        left. f_equal.
        exact (proj1 (map_agree_spec (kmap (prefixed a0) d0) r) Hagree _ _ _ Hx Hr').
Qed.

Lemma holds_dataset_get (m : model) (a : string) :
  holds_dataset m a = true ->
  get_and_rename m a = ret (kmap (prefixed a) (dataset_of m a)).
Proof.
  unfold holds_dataset, get_and_rename, getattr, dataset_of.
  destruct (m !! a) as [[d|d|s]|]; try discriminate; reflexivity.
Qed.

Lemma mapM_get_and_rename (m : model) (attrs : list string) :
  forallb (holds_dataset m) attrs = true ->
  mapM (get_and_rename m) attrs
  = ret (map (fun ag => kmap (prefixed (fst ag)) (snd ag))
           (map (fun a => (a, dataset_of m a)) attrs)).
Proof.
  induction attrs as [|a attrs IH]; [reflexivity|].
  cbn [forallb]. intros [Ha Hrest]%andb_true_iff.
  cbn [mapM map]. rewrite (holds_dataset_get m a Ha), (IH Hrest). reflexivity.
Qed.


Lemma collect_attrs_lookup (m : model) (ks : list string) (acc : gmap string scalar) :
  forallb (holds_scalar m) ks = true ->
  exists A,
    collect_attrs m ks acc = ret A
    /\ forall k, A !! k = if decide (k ∈ ks) then scalar_of m k else acc !! k.
Proof.
  revert acc. induction ks as [|k0 ks IH]; intros acc.
  - intros _. exists acc. split; [reflexivity|]. intros k.
    destruct (decide (k ∈ [])) as [H|_]; [apply elem_of_nil in H; contradiction|reflexivity].
  - cbn [forallb]. intros [H0 Hks]%andb_true_iff.
    unfold holds_scalar in H0. cbn [collect_attrs]. unfold getattr.
    destruct (m !! k0) as [[d|d|s]|] eqn:Hk0; try discriminate.
    cbn [bind ret as_scalar].
    destruct (IH (<[k0 := s]> acc) Hks) as (A & HA & Hlook).
    exists A. split; [exact HA|]. intros k. rewrite Hlook.
    destruct (decide (k ∈ ks)) as [Hin|Hnin].
    + rewrite decide_True by (apply elem_of_cons; auto). reflexivity.
    + destruct (decide (k = k0)) as [->|Hne].
      * rewrite decide_True by (apply elem_of_cons; auto).
        rewrite lookup_insert_eq. unfold scalar_of. rewrite Hk0. reflexivity.
      * rewrite decide_False by (rewrite elem_of_cons; tauto).
        apply lookup_insert_ne. congruence.
Qed.

(** *** Reading *)

Lemma load_arrays_run (all_ds : container) (attrs : list string)
    (m0 : model) (o : option (gmap string scalar)) :
  (forall a,
     fst (load_arrays all_ds attrs (m0, o)) !! a
     = if decide (a ∈ attrs)
       then Some (ADataset (select_and_strip (c_vars all_ds) a))
       else m0 !! a)
  /\ snd (load_arrays all_ds attrs (m0, o))
     = match attrs with [] => o | _ :: _ => Some (c_attrs all_ds) end.
Proof.
  revert m0 o. induction attrs as [|a0 attrs IH]; intros m0 o.
  - split; [|reflexivity]. intros a.
    destruct (decide (a ∈ [])) as [H|_]; [apply elem_of_nil in H; contradiction|reflexivity].
  - cbn [load_arrays fst].
    destruct (IH (setattr m0 a0 (ADataset (select_and_strip (c_vars all_ds) a0)))
                (Some (c_attrs all_ds))) as [Hl Ho].
    split.
    + intros a. rewrite Hl. destruct (decide (a ∈ attrs)) as [Hin|Hnin].
      * rewrite decide_True by (apply elem_of_cons; auto). reflexivity.
      * unfold setattr. destruct (decide (a = a0)) as [->|Hne].
        -- rewrite decide_True by (apply elem_of_cons; auto). apply lookup_insert_eq.
        -- rewrite decide_False by (rewrite elem_of_cons; tauto).
           apply lookup_insert_ne. congruence.
    + rewrite Ho. destruct attrs; reflexivity.
Qed.

Lemma load_attrs_ok (ks : list string) (m : model) (attrs : gmap string scalar) :
  NoDup ks ->
  (forall k, k ∈ ks -> is_Some (attrs !! k)) ->
  exists m',
    load_attrs ks m attrs = ret m'
    /\ forall k, m' !! k = if decide (k ∈ ks) then AScalar <$> attrs !! k else m !! k.
Proof.
  revert m attrs. induction ks as [|k0 ks IH]; intros m attrs Hnd Hall.
  - exists m. split; [reflexivity|]. intros k.
    destruct (decide (k ∈ [])) as [H|_]; [apply elem_of_nil in H; contradiction|reflexivity].
  - apply NoDup_cons in Hnd as [Hk0 Hnd].
    destruct (Hall k0) as [s Hs]; [apply elem_of_cons; auto|].
    cbn [load_attrs]. rewrite Hs.
    destruct (IH (setattr m k0 (AScalar s)) (delete k0 attrs) Hnd) as (m' & Hm' & Hl).
    { intros k Hk. rewrite lookup_delete_ne by (intros ->; contradiction).
      apply Hall, elem_of_cons. auto. }
    exists m'. split; [exact Hm'|]. intros k. rewrite Hl.
    destruct (decide (k ∈ ks)) as [Hin|Hnin].
    + rewrite decide_True by (apply elem_of_cons; auto).
      rewrite lookup_delete_ne by (intros ->; contradiction). reflexivity.
    + unfold setattr. destruct (decide (k = k0)) as [->|Hne].
      * rewrite decide_True by (apply elem_of_cons; auto).
        rewrite lookup_insert_eq, Hs. reflexivity.
      * rewrite decide_False by (rewrite elem_of_cons; tauto).
        apply lookup_insert_ne. congruence.
Qed.

Lemma load_attrs_missing (ks : list string) (m : model)
    (attrs : gmap string scalar) (k : string) :
  NoDup ks -> k ∈ ks -> attrs !! k = None ->
  exists k',
    load_attrs ks m attrs = inl (KeyError k') /\ k' ∈ ks /\ attrs !! k' = None.
Proof.
  revert m attrs. induction ks as [|k0 ks IH]; intros m attrs Hnd Hk Hnone.
  - apply elem_of_nil in Hk. contradiction.
  - apply NoDup_cons in Hnd as [Hk0 Hnd]. cbn [load_attrs].
    destruct (attrs !! k0) as [s|] eqn:Hs.
    + apply elem_of_cons in Hk as [->|Hk]; [congruence|].
      destruct (IH (setattr m k0 (AScalar s)) (delete k0 attrs) Hnd Hk)
        as (k' & Hrun & Hin & Hnone').
      { rewrite lookup_delete_ne by (intros ->; contradiction). exact Hnone. }
      exists k'. split; [exact Hrun|]. split; [apply elem_of_cons; auto|].
      rewrite lookup_delete_ne in Hnone' by (intros ->; contradiction). exact Hnone'.
    + exists k0. split; [reflexivity|]. split; [apply elem_of_cons; auto|exact Hs].
Qed.

Lemma objective_listed :
  existsb (String.eqb "objective") array_attrs = true -> "objective" ∈ array_attrs.
Proof.
  intros H. apply existsb_exists in H as (a & Ha & Heq).
  apply String.eqb_eq in Heq as <-. apply list_elem_of_In, Ha.
Qed.

(** [read_netcdf] up to its last loop, on a file that holds [c]. *)
Lemma read_netcdf_run (path : string) (fs : gmap string container) (c : container) :
  "objective" ∈ array_attrs ->
  fs !! path = Some c ->
  read_netcdf array_attrs obj_attrs Model_init path fs
  = load_attrs obj_attrs
      (setattr (fst (load_arrays c array_attrs (Model_init, None))) "objective"
         (ALinearExpression (select_and_strip (c_vars c) "objective")))
      (c_attrs c).
Proof.
  intros Hobj Hc. unfold read_netcdf. rewrite Hc. cbn [bind ret].
  destruct (load_arrays_run c array_attrs Model_init None) as [Hl Ho].
  destruct (load_arrays c array_attrs (Model_init, None)) as [m1 ds].
  cbn [fst snd] in *. unfold getattr. rewrite Hl, decide_True by exact Hobj.
  cbn [bind ret LinearExpression as_dataset].
  destruct obj_attrs as [|k ks]; [reflexivity|].
  rewrite Ho. destruct array_attrs; [apply elem_of_nil in Hobj; contradiction|reflexivity].
Qed.



(** C4, as the code has it: a container that lacks a scalar attribute of
    the enumeration cannot be loaded: [read_netcdf] raises [KeyError] with a
    key of the enumeration that the container lacks, and returns no model;
    a container that has every scalar attribute is loaded whatever data
    variables it holds, and a category other than the objective under whose
    prefix it holds no key is loaded as the empty dataset. *)
Theorem missing_attribute_raises
    (path : string) (fs : gmap string container) (c : container) :
  enumerations_ok array_attrs obj_attrs = true ->
  fs !! path = Some c ->
  (forall k, k ∈ obj_attrs -> c_attrs c !! k = None ->
     exists k',
       read_netcdf array_attrs obj_attrs Model_init path fs = inl (KeyError k')
       /\ k' ∈ obj_attrs /\ c_attrs c !! k' = None)
  /\ ((forall k, k ∈ obj_attrs -> is_Some (c_attrs c !! k)) ->
      exists m',
        read_netcdf array_attrs obj_attrs Model_init path fs = inr m'
        /\ forall a,
             a ∈ array_attrs -> a ∉ obj_attrs -> a <> "objective" ->
             (forall f, c_vars c !! prefixed a f = None) ->
             m' !! a = Some (ADataset ∅)).
Proof.
  unfold enumerations_ok.
  intros [[Hfree Hobj%objective_listed]%andb_true_iff Hnd%bool_decide_eq_true]%andb_true_iff
         Hc.
  rewrite (read_netcdf_run path fs c Hobj Hc). split.
  - intros k Hk Hnone. apply (load_attrs_missing obj_attrs _ _ k Hnd Hk Hnone).
  - intros Hall.
    destruct (load_attrs_ok obj_attrs
                (setattr (fst (load_arrays c array_attrs (Model_init, None))) "objective"
                   (ALinearExpression (select_and_strip (c_vars c) "objective")))
                (c_attrs c) Hnd Hall) as (m' & Hm' & Hl').
    exists m'. split; [exact Hm'|]. intros a Ha Hk Hne Hempty.
    rewrite Hl', decide_False by exact Hk.
    unfold setattr. rewrite lookup_insert_ne by congruence.
    destruct (load_arrays_run c array_attrs Model_init None) as [Hl _].
    rewrite Hl, decide_True by exact Ha. do 2 f_equal.
    apply map_eq. intros f. rewrite select_and_strip_lookup, lookup_empty. apply Hempty.
Qed.

End SnapshotFacts.

(** ** The snapshot of a small model *)

(** C4, counterexample: a container in which no key starts with
    ["constraints-"], and none with the prefix of any category but the
    objective, is loaded without an error; the model that is returned has an
    empty dataset under ["constraints"]. *)
Lemma missing_category_loads :
  forallb (fun kv => negb (startswith "constraints-" (fst kv)))
    (map_to_list (c_vars objective_only)) = true
  /\ exists m',
       read_netcdf example_array_attrs example_obj_attrs ∅ "m.nc"
         {["m.nc" := objective_only]} = inr m'
       /\ m' !! "constraints" = Some (ADataset ∅)
       /\ m' !! "status" = Some (AScalar "ok").
Proof.
  split; [vm_compute; reflexivity|].
  eexists. split; [vm_compute; reflexivity|]. split; vm_compute; reflexivity.
Qed.

Lemma missing_attribute_raises_witness :
  exists k',
    read_netcdf example_array_attrs example_obj_attrs ∅ "m.nc"
      {["m.nc" := no_status]} = inl (KeyError k')
    /\ k' ∈ example_obj_attrs /\ c_attrs no_status !! k' = None.
Proof.
  apply (proj1 (missing_attribute_raises example_array_attrs example_obj_attrs ∅
                  "m.nc" {["m.nc" := no_status]} no_status
                  ltac:(vm_compute; reflexivity) ltac:(vm_compute; reflexivity))
           "status").
  - apply elem_of_cons. right. apply elem_of_cons. left. reflexivity.
  - vm_compute. reflexivity.
Defined.

(** * Further properties of the text export *)

(** ** [join_str_arrays] cell by cell *)

Lemma tabulate_lookup {A} (d : A) (t : list A) :
  map (fun i => default d (t !! i)) (seq 0 (length t)) = t.
Proof.
  induction t as [|x t IH]; [reflexivity|].
  cbn [length seq map]. f_equal. rewrite <- seq_shift, map_map. exact IH.
Qed.

Lemma map_seq_ext {A} (g h : nat -> A) (n : nat) :
  (forall i, (i < n)%nat -> g i = h i) -> map g (seq 0 n) = map h (seq 0 n).
Proof.
  intros H. apply map_ext_in. intros i Hi. apply in_seq in Hi. apply H. lia.
Qed.

Lemma add_tables_zip (t : list string) (u : list pyobj) :
  length t = length u ->
  add_tables t u
  = if forallb is_str u
    then ret (zip_with (fun a o => a +:+ str_of o) t u)
    else raise TypeError.
Proof.
  revert u. induction t as [|a t IH]; intros [|o u]; simpl; try discriminate; [reflexivity|].
  intros [= Hlen]. destruct o as [s| |z]; simpl; try reflexivity.
  rewrite (IH u Hlen). destruct (forallb is_str u); reflexivity.
Qed.

Lemma mapM_add_const (a : string) (t : list pyobj) :
  mapM (add_obj a) t
  = if forallb is_str t then ret (map (fun o => a +:+ str_of o) t) else raise TypeError.
Proof. exact (mapM_add_obj (fun _ => a) (fun o => o) t). Qed.

Lemma joined_cell_cons (x : operand) (ops : list operand) (i : nat) :
  joined_cell (x :: ops) i = str_of (operand_cell x i) +:+ joined_cell ops i.
Proof. unfold joined_cell. cbn [map]. apply concat_cons. Qed.

(** The [reduce] from any accumulator: every step appends the cell of the
    next operand to the cell of the accumulator. *)
Lemma reduce_add_cells (n : nat) (ops : list operand) (acc : strtab) :
  strtab_fits n acc = true ->
  forallb (operand_fits n) ops = true ->
  reduce_add ops acc
  = if forallb operand_strs ops
    then ret (if strtab_is_table acc || existsb is_table ops
              then STable (map (fun i => strtab_cell acc i +:+ joined_cell ops i) (seq 0 n))
              else SConst (strtab_cell acc 0 +:+ joined_cell ops 0))
    else raise TypeError.
Proof.
  revert acc. induction ops as [|x ops IH]; intros acc Hacc Hops.
  - cbn [reduce_add forallb existsb]. rewrite orb_false_r. f_equal.
    destruct acc as [a|t]; cbn [strtab_is_table strtab_cell].
    + unfold joined_cell. cbn [map String.concat]. rewrite append_empty_r. reflexivity.
    + cbn [strtab_fits] in Hacc. apply Nat.eqb_eq in Hacc. subst n. f_equal.
      rewrite <- (tabulate_lookup "" t) at 1. apply map_ext. intros i.
      unfold joined_cell. cbn [map String.concat]. rewrite append_empty_r. reflexivity.
  - cbn [forallb] in Hops. apply andb_true_iff in Hops as [Hx Hops].
    cbn [reduce_add forallb existsb].
    destruct acc as [a|t], x as [b|u]; cbn [np_add operand_strs is_table strtab_is_table
      strtab_cell orb andb bind ret].
    + rewrite (IH (SConst (a +:+ b)) eq_refl Hops).
      destruct (forallb operand_strs ops); [|reflexivity]. f_equal.
      cbn [strtab_is_table strtab_cell orb].
      destruct (existsb is_table ops).
      * f_equal. apply map_ext. intros i. rewrite joined_cell_cons, append_assoc. reflexivity.
      * rewrite joined_cell_cons, append_assoc. reflexivity.
    + cbn [operand_fits] in Hx. apply Nat.eqb_eq in Hx.
      rewrite mapM_add_const. destruct (forallb is_str u); cbn [bind ret raise andb]; [|reflexivity].
      rewrite (IH (STable _)) by (cbn [strtab_fits]; rewrite ?length_map; try apply Nat.eqb_eq; auto).
      destruct (forallb operand_strs ops); [|reflexivity]. f_equal.
      cbn [strtab_is_table strtab_cell orb]. f_equal. apply map_seq_ext. intros i Hi.
      rewrite joined_cell_cons, <- append_assoc. f_equal. cbn [operand_cell].
      rewrite list_lookup_fmap. subst n. apply lookup_lt_is_Some in Hi as [o ->]. reflexivity.
    + cbn [strtab_fits] in Hacc. apply Nat.eqb_eq in Hacc.
      rewrite (IH (STable _)) by (cbn [strtab_fits]; rewrite ?length_map; try apply Nat.eqb_eq; auto).
      destruct (forallb operand_strs ops); [|reflexivity]. f_equal.
      cbn [strtab_is_table strtab_cell orb]. f_equal. apply map_seq_ext. intros i Hi.
      rewrite joined_cell_cons, <- append_assoc. f_equal. cbn [operand_cell str_of].
      rewrite list_lookup_fmap. subst n. apply lookup_lt_is_Some in Hi as [o ->]. reflexivity.
    + cbn [strtab_fits] in Hacc. apply Nat.eqb_eq in Hacc.
      cbn [operand_fits] in Hx. apply Nat.eqb_eq in Hx.
      rewrite add_tables_zip by congruence.
      destruct (forallb is_str u); cbn [bind ret raise andb]; [|reflexivity].
      rewrite (IH (STable _)).
      2:{ cbn [strtab_fits]. apply Nat.eqb_eq. rewrite length_zip_with. lia. }
      2:{ exact Hops. }
      destruct (forallb operand_strs ops); [|reflexivity]. f_equal.
      cbn [strtab_is_table strtab_cell orb]. f_equal. apply map_seq_ext. intros i Hi.
      rewrite joined_cell_cons, <- append_assoc. f_equal. cbn [operand_cell].
      rewrite lookup_zip_with.
      assert (is_Some (t !! i)) as [a ->] by (apply lookup_lt_is_Some; lia).
      assert (is_Some (u !! i)) as [o ->] by (apply lookup_lt_is_Some; lia).
      reflexivity.
Qed.

(** X1: [join_str_arrays] on literals and tables of one length [n].  When
    every cell of every table is a [str], the result holds at each index the
    concatenation, in the order of the list, of the cells at this index, a
    literal standing for itself at every index; it is a table of [n] cells as
    soon as one operand is a table, and a bare [str] otherwise.  When some
    cell of some table is not a [str], the join raises [TypeError]. *)
Theorem join_elementwise (n : nat) (arraylist : list operand) :
  forallb (operand_fits n) arraylist = true ->
  join_str_arrays arraylist
  = if forallb operand_strs arraylist
    then ret (if existsb is_table arraylist
              then STable (map (joined_cell arraylist) (seq 0 n))
              else SConst (joined_cell arraylist 0))
    else raise TypeError.
Proof.
  intros H. unfold join_str_arrays. rewrite (reduce_add_cells n) by auto.
  reflexivity.
Qed.

Lemma join_elementwise_witness :
  join_str_arrays [strs ["a"; "b"]; OConst "-"; strs ["c"; "d"]]
  = ret (STable ["a-c"; "b-d"]).
Proof. apply (join_elementwise 2). reflexivity. Defined.

(** ** What the formatted numbers denote *)

(** X2: the coefficient of a finite non-zero float [m * 2^e] is printed as
    its sign and the digits of a whole number of millionths.  This number is
    the exact value when [e] is not negative; otherwise it differs from the
    exact value by at most half a millionth, and it is zero exactly when the
    magnitude is at most half a millionth, in which case the text is
    ["+0.000000"] or ["-0.000000"], the text of a zero coefficient. *)
Theorem float_str_rounds_to_nearest (s : bool) (m : positive) (e : Z) :
  Fmt.float_str (S754_finite s m e)
  = Fmt.sign_char s +:+ Fmt.fixed6 (Fmt.round_micro m e)
  /\ (0 <= e -> Fmt.round_micro m e = Z.pos m * 2 ^ e * 1000000)
  /\ (e < 0 ->
      Z.abs (2 * (Fmt.round_micro m e * 2 ^ (- e) - Z.pos m * 1000000)) <= 2 ^ (- e))
  /\ (e < 0 ->
      (Fmt.round_micro m e = 0 <-> 2 * (Z.pos m * 1000000) <= 2 ^ (- e)))
  /\ (Fmt.round_micro m e = 0 ->
      Fmt.float_str (S754_finite s m e) = Fmt.sign_char s +:+ "0.000000").
Proof.
  split; [reflexivity|]. split; [|split; [|split]].
  - intros He. unfold Fmt.round_micro. apply Z.leb_le in He. rewrite He. reflexivity.
  - intros He. unfold Fmt.round_micro.
    destruct (Z.leb_spec 0 e) as [H|_]; [lia|]. cbv zeta.
    assert (0 < 2 ^ (- e)) as Hden by (apply Z.pow_pos_nonneg; lia).
    set (den := 2 ^ (- e)) in *. set (num := Z.pos m * 1000000).
    pose proof (Z.div_mod num den ltac:(lia)) as Hdm.
    pose proof (Z.mod_pos_bound num den Hden) as Hr.
    destruct (Z.compare_spec (2 * (num mod den)) den) as [Heq|Hlt|Hgt].
    + destruct (Z.even (num / den)); nia.
    + nia.
    + nia.
  - intros He. unfold Fmt.round_micro.
    destruct (Z.leb_spec 0 e) as [H|_]; [lia|]. cbv zeta.
    assert (0 < 2 ^ (- e)) as Hden by (apply Z.pow_pos_nonneg; lia).
    set (den := 2 ^ (- e)) in *. set (num := Z.pos m * 1000000).
    assert (0 < num) as Hnum by (unfold num; lia).
    pose proof (Z.div_mod num den ltac:(lia)) as Hdm.
    pose proof (Z.mod_pos_bound num den Hden) as Hr.
    assert (0 <= num / den) as Hq by (apply Z.div_pos; lia).
    destruct (Z.compare_spec (2 * (num mod den)) den) as [Heq|Hlt|Hgt].
    + destruct (Z.even (num / den)) eqn:Hev; split; intros H0; try nia.
      assert (num / den = 0) as Hq0 by nia. rewrite Hq0 in Hev. discriminate.
    + split; intros H0; nia.
    + split; intros H0; nia.
  - intros H0. unfold Fmt.float_str. cbn [Fmt.fillna0 Fmt.fmt_plus_f]. rewrite H0. reflexivity.
Qed.

(** X3: two tables of labels are printed alike by [to_int_str] exactly when
    they hold the same labels once every null is read as 0: different labels
    never share a name, and a null label shares the name of the label 0. *)
Theorem to_int_str_injective (da da' : list (option Z)) :
  to_int_str da = to_int_str da' <-> map (default 0) da = map (default 0) da'.
Proof.
  unfold to_int_str. revert da'.
  induction da as [|l da IH]; intros [|l' da']; cbn [map]; split;
    try discriminate; try reflexivity.
  - intros [= Hl Hda]. unfold Fmt.int_str, Fmt.fmt_d in Hl.
    apply (inj pretty) in Hl. apply IH in Hda. rewrite Hl, Hda. reflexivity.
  - intros [= Hl Hda]. apply IH in Hda. rewrite Hda.
    unfold Fmt.int_str at 1 2. rewrite Hl. reflexivity.
Qed.

(** ** Writing a table of strings *)

Lemma contents_app (f g : file) : contents (f ++ g) = contents f +:+ contents g.
Proof. apply concat_app. Qed.

(** ** When the constraints section raises, and which rows it skips *)




Lemma row_valid_iff (r : con_row) :
  row_valid r = true
  <-> (exists t, In t (con_terms r) /\ coeff t <> S754_nan /\ var t <> Some (-1))
      /\ con_label r <> Some (-1)
      /\ con_sign r <> None
      /\ con_rhs r <> S754_nan.
Proof.
  unfold row_valid. rewrite !andb_true_iff, existsb_exists, ne_sentinel_true, notnull_true.
  assert (notnull_obj (con_sign r) = true <-> con_sign r <> None) as ->
    by (destruct (con_sign r); simpl; split; congruence).
  assert ((exists t, In t (con_terms r) /\ term_valid t = true)
          <-> (exists t, In t (con_terms r) /\ coeff t <> S754_nan /\ var t <> Some (-1)))
    as ->.
  { split; intros (t & Ht & H); exists t; (split; [exact Ht|]);
      unfold term_valid in *; rewrite andb_true_iff, notnull_true, ne_sentinel_true in *;
      exact H. }
  tauto.
Qed.

(** X6: when the join of the constraints section succeeds, the string
    written for the row at index [i] is the block of the row when the row is
    valid and the empty string otherwise; a block is never empty; and a row
    is valid exactly when one of its term cells has a non-null coefficient
    and a label other than the sentinel, its own label is not the sentinel,
    and its sign and its right-hand side are not null. *)
Theorem invalid_rows_skipped (m : Model) (i : nat) (r : con_row) :
  joinable m = true ->
  con_rows m !! i = Some r ->
  snd (constraints_to_file m []) !! S i = Some (if row_valid r then block r else "")
  /\ block r <> ""
  /\ (row_valid r = true
      <-> (exists t, In t (con_terms r) /\ coeff t <> S754_nan /\ var t <> Some (-1))
          /\ con_label r <> Some (-1)
          /\ con_sign r <> None
          /\ con_rhs r <> S754_nan).
Proof.
  intros Hj Hi. split; [|split; [apply block_nonempty|apply row_valid_iff]].
  rewrite constraints_to_file_run, Hj. cbn [snd app].
  change ((constraints_header :: map masked_block (con_rows m)) !! S i)
    with (map masked_block (con_rows m) !! i).
  rewrite lookup_map, Hi. reflexivity.
Qed.

Lemma invalid_rows_skipped_witness :
  snd (constraints_to_file skipped_rows_model []) !! 2%nat = Some "".
Proof.
  apply (invalid_rows_skipped skipped_rows_model 1
           (ConRow (Some 1) [Term f64_3 (Some 0)] (Some "<=") S754_nan));
    reflexivity.
Defined.

(** ** The selection of the non-binary variables *)

Lemma ds_getitem_from_error {A} (ds : Dataset A) (names : list string)
    (acc : Dataset A) (e : pyerror) :
  ds_getitem_from ds names acc = inl e ->
  exists pre n post,
    names = pre ++ n :: post /\ e = KeyError n /\ ds_lookup ds n = None
    /\ forall k, In k pre -> ds_lookup ds k <> None.
Proof.
  revert acc. induction names as [|n names IH]; intros acc; cbn [ds_getitem_from].
  - discriminate.
  - destruct (ds_lookup ds n) as [a|] eqn:Hn.
    + intros H. destruct (IH _ H) as (pre & k & post & -> & -> & Hk & Hpre).
      exists (n :: pre), k, post. repeat split; [exact Hk|].
      intros k' [<-|Hk']; [congruence|auto].
    + intros [= <-]. exists [], n, names. repeat split; [exact Hn|]. intros k [].
Qed.

Lemma ds_getitem_from_ok {A} (ds : Dataset A) (names : list string) (acc : Dataset A) :
  (forall n, In n names -> ds_lookup ds n <> None) ->
  exists d, ds_getitem_from ds names acc = inr d.
Proof.
  revert acc. induction names as [|n names IH]; intros acc H; cbn [ds_getitem_from].
  - eexists. reflexivity.
  - destruct (ds_lookup ds n) as [a|] eqn:Hn.
    + apply IH. intros k Hk. apply H. right. exact Hk.
    + exfalso. apply (H n); [left; reflexivity|exact Hn].
Qed.

Lemma non_binary_rows_outcome (m : Model) :
  (exists rows, non_binary_rows m = inr rows)
  <-> forall n, In n (_non_binary_variables m) -> ds_lookup (variable_rows m) n <> None.
Proof.
  unfold non_binary_rows, ds_getitem. split.
  - intros [rows H] n Hn Hnone.
    destruct (ds_getitem_from _ _ _) as [e|d] eqn:Hd; [discriminate|].
    clear H rows. revert Hd. generalize (@nil (string * list var_row)).
    induction (_non_binary_variables m) as [|k names IH]; [destruct Hn|].
    intros acc. cbn [ds_getitem_from].
    destruct Hn as [->|Hn].
    + rewrite Hnone. discriminate.
    + destruct (ds_lookup (variable_rows m) k); [|discriminate]. apply (IH Hn).
  - intros H. destruct (ds_getitem_from_ok (variable_rows m) _ [] H) as [d ->].
    eexists. reflexivity.
Qed.

Lemma non_binary_rows_error (m : Model) (e : pyerror) :
  non_binary_rows m = inl e ->
  exists pre n post,
    _non_binary_variables m = pre ++ n :: post /\ e = KeyError n
    /\ ds_lookup (variable_rows m) n = None
    /\ forall k, In k pre -> ds_lookup (variable_rows m) k <> None.
Proof.
  unfold non_binary_rows, ds_getitem.
  destruct (ds_getitem_from _ _ _) as [e'|d] eqn:Hd; cbn [bind ret]; [|discriminate].
  intros [= <-]. exact (ds_getitem_from_error _ _ _ _ Hd).
Qed.

(** X7: [bounds_to_file] returns normally exactly when every name listed in
    [_non_binary_variables] is a data variable of the variable tables.
    Otherwise it raises [KeyError] with the first listed name that is not
    one, and it has then written the header of the section and nothing
    else. *)
Theorem bounds_missing_variable (m : Model) (f : file) :
  (fst (bounds_to_file m f) = inr tt
   <-> forall n, In n (_non_binary_variables m) -> ds_lookup (variable_rows m) n <> None)
  /\ (forall e,
        fst (bounds_to_file m f) = inl e ->
        snd (bounds_to_file m f) = f ++ [bounds_header]
        /\ exists pre n post,
             _non_binary_variables m = pre ++ n :: post /\ e = KeyError n
             /\ ds_lookup (variable_rows m) n = None
             /\ forall k, In k pre -> ds_lookup (variable_rows m) k <> None).
Proof.
  rewrite <- non_binary_rows_outcome, bounds_to_file_run.
  destruct (non_binary_rows m) as [e|rows] eqn:Hrows; cbn [fst snd ret].
  - split.
    + split; [discriminate|]. intros [rows H]. discriminate.
    + intros e' [= <-]. split; [reflexivity|]. apply non_binary_rows_error, Hrows.
  - split.
    + split; [eauto|reflexivity].
    + intros e [=].
Qed.








(** ** The outcome and the text of the whole export *)


(** X10: for tables held in memory and a handle that accepts every write:
    when no writer raises, the export returns normally and the text written
    to the handle is the objective header and the lines of the valid
    objective cells; the constraints header and the blocks of the valid
    rows; the bounds header and the lines of the valid cells of the
    non-binary variables; the binaries header and the lines of the binaries
    other than the sentinel; and the terminator; each part in the order of
    its table and with nothing in between.  The cells that are masked have
    no influence on the text. *)
Theorem export_text (m : Model) (rows : list var_row) :
  joinable m = true ->
  non_binary_rows m = inr rows ->
  fst (export m []) = inr tt
  /\ contents (snd (export m []))
     = objective_header
       +:+ String.concat "" (map term_line (List.filter term_valid (objective m)))
       +:+ constraints_header
       +:+ String.concat "" (map block (emitted_rows m))
       +:+ bounds_header
       +:+ String.concat "" (map bound_line (List.filter bound_valid rows))
       +:+ binaries_header
       +:+ String.concat ""
             (map binary_line (List.filter ne_sentinel (ds_cells (binaries m))))
       +:+ terminator.
Proof.
  intros Hj Hrows. rewrite export_run, Hj, Hrows. cbn [fst snd app ret].
  split; [reflexivity|].
  unfold objective_writes, constraints_writes, bounds_writes, binaries_writes, emitted_rows.
  rewrite !contents_app. unfold contents.
  rewrite !concat_cons, concat_app, !append_assoc.
  rewrite (concat_masked term_valid term_line).
  rewrite (concat_masked row_valid block).
  rewrite (concat_masked bound_valid bound_line).
  rewrite (concat_masked ne_sentinel binary_line).
  cbn [String.concat]. reflexivity.
Qed.

Lemma export_text_witness :
  contents (snd (export ragged_model []))
  = objective_header +:+ ("+1.000000 x0" +:+ nl)
    +:+ constraints_header
    +:+ ("c0: " +:+ nl +:+ "+2.000000 x0" +:+ nl +:+ "+3.000000 x1" +:+ nl
         +:+ "<=" +:+ nl +:+ "+10.000000" +:+ nl +:+ nl)
    +:+ ("c1: " +:+ nl +:+ "+1.000000 x1" +:+ nl
         +:+ ">=" +:+ nl +:+ "+1.000000" +:+ nl +:+ nl)
    +:+ bounds_header +:+ binaries_header +:+ terminator.
Proof.
  destruct (export_text ragged_model
              [VarRow (Some 0) S754_nan S754_nan; VarRow (Some 1) S754_nan S754_nan]
              eq_refl eq_refl) as [_ Htext].
  rewrite Htext. reflexivity.
Defined.

(** * Further properties of the snapshot *)

Section SnapshotFiles.
Context {table scalar : Type} `{EqDecision table}.
Variable array_attrs : list string.
Variable obj_attrs : list string.
Variable Model_init : gmap string (@attr_value table scalar).

Abbreviation group := (gmap string table).
Abbreviation model := (gmap string (@attr_value table scalar)).
Abbreviation container := (@container table scalar).

(** What [to_netcdf] puts into the file. *)
Lemma to_netcdf_run (m : model) (path : string) (fs : gmap string container) :
  forallb hyphen_free array_attrs = true ->
  model_ok array_attrs obj_attrs m = true ->
  exists c,
    to_netcdf array_attrs obj_attrs m path fs = inr (<[path := c]> fs)
    /\ (forall k y,
          c_vars c !! k = Some y
          <-> exists a f,
                a ∈ array_attrs /\ k = prefixed a f /\ dataset_of m a !! f = Some y)
    /\ (forall k,
          c_attrs c !! k = if decide (k ∈ obj_attrs) then scalar_of m k else None).
Proof.
  unfold model_ok. intros Hfree [Hds Hsc]%andb_true_iff.
  destruct (merge_renamed (map (fun a => (a, dataset_of m a)) array_attrs))
    as (M & HM & Hlook).
  { apply Forall_forall. intros [a d] Hin.
    apply list_elem_of_In, in_map_iff in Hin as (a' & [= <- <-] & Hin). cbn [fst].
    rewrite forallb_forall in Hfree. auto. }
  { intros a d d' H1 H2.
    apply list_elem_of_In, in_map_iff in H1 as (? & [= <- <-] & _).
    apply list_elem_of_In, in_map_iff in H2 as (? & [= <- <-] & _). reflexivity. }
  destruct (collect_attrs_lookup m obj_attrs ∅ Hsc) as (A & HA & HAl).
  exists (Container M A). split; [|split].
  - unfold to_netcdf. rewrite (mapM_get_and_rename m array_attrs Hds). cbn [bind ret].
    rewrite HM. cbn [bind ret]. rewrite HA. reflexivity.
  - intros k y. cbn [c_vars]. rewrite Hlook. split.
    + intros (a & d & f & Hin & -> & Hy).
      apply list_elem_of_In, in_map_iff in Hin as (? & [= -> <-] & Hin).
      exists a, f. split; [apply list_elem_of_In, Hin|auto].
    + intros (a & f & Ha & -> & Hy). exists a, (dataset_of m a), f.
      split; [|auto]. apply list_elem_of_In, in_map_iff. exists a.
      split; [reflexivity|]. apply list_elem_of_In, Ha.
  - intros k. cbn [c_attrs]. rewrite HAl, lookup_empty. reflexivity.
Qed.

Lemma known_key_prefixed (k : string) :
  known_key array_attrs k = true ->
  exists a f, a ∈ array_attrs /\ k = prefixed a f.
Proof.
  unfold known_key. intros (a & Ha & Hk)%existsb_exists.
  exists a, (slice_from (String.length a + 1) k).
  split; [apply list_elem_of_In, Ha|]. apply startswith_is_prefixed, Hk.
Qed.

(** X14: for usable enumerations that share no name, a file whose
    container holds only data variables of the categories and exactly the
    scalar attributes of the enumeration is read without an exception, and
    writing the model that was read puts the same container into the file
    again, under any path. *)
Theorem read_write_roundtrip
    (path : string) (fs : gmap string container) (c : container) :
  enumerations_ok array_attrs obj_attrs = true ->
  enumerations_disjoint array_attrs obj_attrs = true ->
  container_ok array_attrs obj_attrs c = true ->
  fs !! path = Some c ->
  exists m',
    read_netcdf array_attrs obj_attrs Model_init path fs = inr m'
    /\ forall path' fs',
         to_netcdf array_attrs obj_attrs m' path' fs' = inr (<[path' := c]> fs').
Proof.
  unfold enumerations_ok, enumerations_disjoint, container_ok.
  intros [[Hfree Hobj%objective_listed]%andb_true_iff Hnd%bool_decide_eq_true]%andb_true_iff
         Hdisj [[Hkeys Hdom]%andb_true_iff Hall]%andb_true_iff Hc.
  assert (forall a, a ∈ array_attrs -> a ∉ obj_attrs) as Hdisj'.
  { intros a Ha. rewrite forallb_forall in Hdisj.
    apply list_elem_of_In, Hdisj in Ha. apply bool_decide_eq_true in Ha. exact Ha. }
  assert (forall k, k ∈ obj_attrs -> is_Some (c_attrs c !! k)) as Hall'.
  { intros k Hk. rewrite forallb_forall in Hall.
    apply list_elem_of_In, Hall in Hk. apply bool_decide_eq_true in Hk. exact Hk. }
  rewrite (read_netcdf_run array_attrs obj_attrs Model_init path fs c Hobj Hc).
  destruct (load_arrays_run c array_attrs Model_init None) as [Hl _].
  set (m1 := fst (load_arrays c array_attrs (Model_init, None))) in *.
  destruct (load_attrs_ok obj_attrs
              (setattr m1 "objective"
                 (ALinearExpression (select_and_strip (c_vars c) "objective")))
              (c_attrs c) Hnd Hall') as (m' & Hm' & Hl').
  exists m'. split; [exact Hm'|]. intros path' fs'.
  assert (forall a, a ∈ array_attrs ->
            holds_dataset m' a = true
            /\ dataset_of m' a = select_and_strip (c_vars c) a) as Hcat.
  { intros a Ha. unfold holds_dataset, dataset_of.
    rewrite Hl', decide_False by (apply Hdisj', Ha). unfold setattr.
    destruct (decide (a = "objective")) as [->|Hne].
    - rewrite lookup_insert_eq. split; reflexivity.
    - rewrite lookup_insert_ne by congruence. rewrite Hl, decide_True by exact Ha.
      split; [|reflexivity]. apply negb_true_iff, String.eqb_neq, Hne. }
  assert (forall k, k ∈ obj_attrs ->
            holds_scalar m' k = true /\ scalar_of m' k = c_attrs c !! k) as Hsc.
  { intros k Hk. unfold holds_scalar, scalar_of. rewrite Hl', decide_True by exact Hk.
    destruct (Hall' k Hk) as [s ->]. split; reflexivity. }
  destruct (to_netcdf_run m' path' fs' Hfree) as (c' & Hrun & Hv & Ha).
  { unfold model_ok. apply andb_true_iff. split; apply forallb_forall; intros x Hx.
    - apply Hcat, list_elem_of_In, Hx.
    - apply Hsc, list_elem_of_In, Hx. }
  rewrite Hrun. do 2 f_equal.
  destruct c as [V A], c' as [V' A']. cbn [c_vars c_attrs] in *. f_equal.
  - apply map_eq. intros k. apply option_eq. intros y. rewrite Hv. split.
    + intros (a & f & Hin & -> & Hy).
      rewrite (proj2 (Hcat a Hin)), select_and_strip_lookup in Hy. exact Hy.
    + intros Hy. rewrite forallb_forall in Hkeys.
      destruct (known_key_prefixed k) as (a & f & Hin & ->).
      { apply (Hkeys (k, y)), list_elem_of_In, elem_of_map_to_list, Hy. }
      exists a, f. split; [exact Hin|]. split; [reflexivity|].
      rewrite (proj2 (Hcat a Hin)), select_and_strip_lookup. exact Hy.
  - apply map_eq. intros k. rewrite Ha.
    destruct (decide (k ∈ obj_attrs)) as [Hk|Hk]; [apply Hsc, Hk|].
    destruct (A !! k) as [s|] eqn:Hs; [|reflexivity].
    exfalso. apply Hk. rewrite forallb_forall in Hdom.
    assert (In (k, s) (map_to_list A)) as Hin
      by (apply list_elem_of_In, elem_of_map_to_list, Hs).
    apply Hdom in Hin. apply bool_decide_eq_true in Hin. exact Hin.
Qed.

End SnapshotFiles.

(** ** Snapshot files of the small model *)

Lemma read_write_roundtrip_witness :
  exists m',
    read_netcdf example_array_attrs example_obj_attrs ∅ "m.nc" {["m.nc" := objective_only]}
    = inr m'
    /\ to_netcdf example_array_attrs example_obj_attrs m' "copy.nc" ∅
       = inr {["copy.nc" := objective_only]}.
Proof.
  destruct (read_write_roundtrip example_array_attrs example_obj_attrs ∅
              "m.nc" {["m.nc" := objective_only]} objective_only) as (m' & Hr & Hw).
  - vm_compute. reflexivity.
  - vm_compute. reflexivity.
  - vm_compute. reflexivity.
  - vm_compute. reflexivity.
  - exists m'. split; [exact Hr|]. apply Hw.
Defined.

(** * The snapshot of labelled tables *)

(** C1, at a model whose categories share a dimension: the variables lie
    over the labels 0 and 1 of [dim_0], the constraint [con0] over the label
    0 only.  Writing the snapshot and reading it back should give the model
    again; instead [xr.merge] joins the labels of [dim_0] over all
    categories, and the constraint that is read back lies over the labels 0
    and 1, with NaN at the label 1, while the variables are unchanged.  And
    for a model whose status is [None], or whose categories disagree on the
    size of a dimension without labels, [to_netcdf] raises and writes no
    snapshot at all. *)
Theorem snapshot_pads_shared_dimension :
  shared_dim_model !! "constraints"
  = Some (ADataset {["con0" := Labelled.LArray [("dim_0", Labelled.Labels [0])]
                                 {[ [0%nat] := "0" ]} ]})
  /\ (let* m' := Labelled.roundtrip example_array_attrs example_obj_attrs ∅
                   shared_dim_model "m.nc" in
      ret (m' !! "constraints"))
     = inr (Some (ADataset
                    {["con0" := Labelled.LArray [("dim_0", Labelled.Labels [0; 1])]
                                  {[ [0%nat] := "0" ]} ]}))
  /\ (let* m' := Labelled.roundtrip example_array_attrs example_obj_attrs ∅
                   shared_dim_model "m.nc" in
      ret (m' !! "constraints"))
     <> inr (shared_dim_model !! "constraints")
  /\ (let* m' := Labelled.roundtrip example_array_attrs example_obj_attrs ∅
                   shared_dim_model "m.nc" in
      ret (m' !! "variables"))
     = inr (shared_dim_model !! "variables")
  /\ Labelled.to_netcdf example_array_attrs example_obj_attrs no_status_model "m.nc" ∅
     = inl TypeError
  /\ Labelled.to_netcdf example_array_attrs example_obj_attrs unlabelled_model "m.nc" ∅
     = inl ValueError.
Proof.
  assert ((let* m' := Labelled.roundtrip example_array_attrs example_obj_attrs ∅
                        shared_dim_model "m.nc" in
           ret (m' !! "constraints"))
          = inr (Some (ADataset
                    {["con0" := Labelled.LArray [("dim_0", Labelled.Labels [0; 1])]
                                  {[ [0%nat] := "0" ]} ]}))) as Hback
    by (vm_compute; reflexivity).
  assert (shared_dim_model !! "constraints"
          = Some (ADataset {["con0" := Labelled.LArray [("dim_0", Labelled.Labels [0])]
                                         {[ [0%nat] := "0" ]} ]})) as Hmodel
    by (vm_compute; reflexivity).
  split; [exact Hmodel|]. split; [exact Hback|].
  split; [|split; [|split]]; try (vm_compute; reflexivity).
  rewrite Hback, Hmodel. intros [= Heq].
Qed.

(** ** Aligned datasets *)

Section AlignedFacts.

Context {cell : Type} `{EqDecision cell}.

Implicit Types (a : @Labelled.larray cell) (J : gmap string (list Z)).






End AlignedFacts.

(** The models of the examples. *)
Example aligned_model_is_aligned :
  Labelled.model_aligned example_array_attrs aligned_model = true
  /\ Labelled.model_storable example_obj_attrs aligned_model = true
  /\ Labelled.model_aligned example_array_attrs shared_dim_model = false
  /\ Labelled.model_storable example_obj_attrs no_status_model = false.
Proof. repeat split; vm_compute; reflexivity. Qed.

Section AlignedSnapshots.

Context {cell : Type} `{EqDecision cell}.
Variable array_attrs : list string.
Variable obj_attrs : list string.
Variable Model_init : gmap string (@attr_value (@Labelled.larray cell) Labelled.pyscalar).

Abbreviation model := (gmap string (@attr_value (@Labelled.larray cell) Labelled.pyscalar)).
Abbreviation container := (@container (@Labelled.larray cell) Labelled.pyscalar).



End AlignedSnapshots.


